(** * maptoposter: the thematic rendering and caching pipeline

    A shallow embedding of [create_map_poster.py]: theme loading, the colour
    configuration language, feature gating, the cache key and the cache store,
    road classification, gradient sampling along edges, area layers and the
    vignette fades.

    Conventions.
    - A theme is what [json.load] returns, so theme values are JSON values and
      a theme is a finite map from strings to JSON values.
    - Python floats are read as the rational numbers they denote; NaN and the
      infinities are outside the model.
    - A Python exception is a [Raise] in the [result] monad; [print] calls are
      left out. *)

From Stdlib Require Import ZArith QArith Qround Qabs Qminmax String Ascii List Lia Lqa.
From stdpp Require Import base option gmap strings list pretty sorting.

#[local] Set Warnings "-register-all".

(** ** Exceptions as values *)

Inductive exn : Type :=
  | JSONDecodeError
  | AttributeError
  | KeyError
  | IndexError
  | ZeroDivisionError
  | ValueError
  | TypeError
  | OSError.

Inductive result (A : Type) : Type :=
  | Ok (a : A)
  | Raise (e : exn).

Arguments Ok {A} a.
Arguments Raise {A} e.

#[global] Instance result_ret : MRet result := fun A a => Ok a.

#[global] Instance result_bind : MBind result := fun A B k r =>
  match r with
  | Ok a => k a
  | Raise e => Raise e
  end.

(** [try: r except: h] is Python's [try ... except Exception: ...]. *)
Definition try_except {A : Type} (r : result A) (h : A) : A :=
  match r with
  | Ok a => a
  | Raise _ => h
  end.

Definition of_option {A : Type} (e : exn) (o : option A) : result A :=
  match o with
  | Some a => Ok a
  | None => Raise e
  end.

(** ** JSON values, as produced by [json.load] *)

Inductive json : Type :=
  | JNull
  | JBool (b : bool)
  | JNum (q : Q)
  | JStr (s : string)
  | JList (l : list json)
  | JDict (m : gmap string json).

(** [k in d] for a Python dict. *)
Definition has_key {V : Type} (k : string) (d : gmap string V) : bool :=
  bool_decide (is_Some (d !! k)).

(** [d.get(k, dflt)]. *)
Definition dict_get {V : Type} (d : gmap string V) (k : string) (dflt : V) : V :=
  default dflt (d !! k).

(** [d.get(k) == s] for a string literal [s]: only a JSON string equals it. *)
Definition json_is_str (v : option json) (s : string) : bool :=
  match v with
  | Some (JStr s') => bool_decide (s' = s)
  | _ => false
  end.

(** ** ThemeModel *)

(** What [load_theme] finds at [themes/<name>.json]: no file, a file that
    cannot be read, a file that is not JSON, or a JSON document. *)
Inductive theme_file : Type :=
  | NoFile
  | Unreadable
  | BadJson
  | Json (j : json).

Definition default_theme : gmap string json :=
  list_to_map
    [ ("name", JStr "Feature-Based Shading");
      ("bg", JStr "#FFFFFF");
      ("text", JStr "#000000");
      ("gradient_color", JStr "#FFFFFF");
      ("water", JStr "#C0C0C0");
      ("parks", JStr "#F0F0F0");
      ("road_motorway", JStr "#0A0A0A");
      ("road_primary", JStr "#1A1A1A");
      ("road_secondary", JStr "#2A2A2A");
      ("road_tertiary", JStr "#3A3A3A");
      ("road_residential", JStr "#4A4A4A");
      ("road_default", JStr "#3A3A3A") ]%string.

(** [load_theme]: the embedded default when the file is missing; otherwise
    the parsed document, on which [theme.get('name', ...)] is called first:
    that raises [AttributeError] on anything but a dict. No key is checked. *)
Definition load_theme (f : theme_file) : result (gmap string json) :=
  match f with
  | NoFile => Ok default_theme
  | Unreadable => Raise OSError
  | BadJson => Raise JSONDecodeError
  | Json (JDict theme) => Ok theme
  | Json _ => Raise AttributeError
  end.

Definition required_keys : list string :=
  [ "bg"; "text"; "gradient_color"; "road_default" ]%string.

Definition has_required (theme : gmap string json) : bool :=
  forallb (fun k => has_key k theme) required_keys.

Definition is_mapping (j : json) : bool :=
  match j with
  | JDict _ => true
  | _ => false
  end.

(** [parse_color_config]: the pair (is_gradient, value). *)
Definition parse_color_config (config : json) : bool * json :=
  match config with
  | JList _ =>
      (true,
       JDict (list_to_map
                [ ("type", JStr "gradient");
                  ("colors", config);
                  ("direction", JStr "vertical") ]%string))
  | JDict d =>
      if json_is_str (d !! "type"%string) "gradient" then (true, config)
      else (false, config)
  | _ => (false, config)
  end.

(** ** FeatureGate *)

(** The [feature_keys] dict of [get_enabled_features], in insertion order:
    feature name, theme key. *)
Definition feature_keys : list (string * string) :=
  [ ("water", "water"); ("parks", "parks"); ("stadiums", "stadiums");
    ("railway", "railway"); ("forest", "forest"); ("beach", "beach");
    ("coastline", "coastline"); ("education", "education");
    ("worship", "worship"); ("airport", "airport") ]%string.

Definition feature_names : list string := map fst feature_keys.

(** The returned dict, as the list of its items in insertion order. *)
Definition get_enabled_features (theme : gmap string json) : list (string * bool) :=
  map (fun '(feature_name, theme_key) => (feature_name, has_key theme_key theme))
      feature_keys.

(** ** CacheStore: the key *)

(** Python's [sorted] on strings: byte-wise lexicographic order. *)
Definition sorted (l : list string) : list string := merge_sort String.le l.

(** Round to the nearest integer, ties to even. *)
Definition round_half_even (q : Q) : Z :=
  let f := Qfloor q in
  match Qcompare (q - inject_Z f) (1 # 2) with
  | Lt => f
  | Gt => (f + 1)%Z
  | Eq => if Z.even f then f else (f + 1)%Z
  end.

(** The six decimals of a number of millionths below one. *)
Definition six_digits (m : Z) : string :=
  let d k := pretty_N_char (Z.to_N ((m / k) mod 10)) in
  String (d 100000%Z) (String (d 10000%Z) (String (d 1000%Z)
    (String (d 100%Z) (String (d 10%Z) (String (d 1%Z) ""))))).

(** The magnitude after rounding to six decimals, in millionths. *)
Definition rounded_6 (q : Q) : Z := round_half_even (Qabs q * inject_Z 1000000).

(** The format spec [.6f]: the sign of the number (kept even when it rounds
    to zero), the integer part, a point, six decimals. *)
Definition format_6f (q : Q) : string :=
  let n := rounded_6 q in
  (if Qlt_le_dec q 0 then "-" else "")
    +:+ pretty (n / 1000000)%Z +:+ "." +:+ six_digits (n mod 1000000).

(** [[k for k, v in enabled_features.items() if v]]. *)
Definition enabled_names (enabled_features : list (string * bool)) : list string :=
  map fst (filter (fun kv => snd kv = true) enabled_features).

Definition features_str (enabled_features : list (string * bool)) : string :=
  String.concat "_" (sorted (enabled_names enabled_features)).

Definition key_string (point : Q * Q) (dist : Z) (network_type : string)
    (enabled_features : list (string * bool)) : string :=
  let '(lat, lon) := point in
  format_6f lat +:+ "_" +:+ format_6f lon +:+ "_" +:+ pretty dist +:+ "_"
    +:+ network_type +:+ "_" +:+ features_str enabled_features.

(** *** MD5 (RFC 1321), as computed by [hashlib.md5] *)

Definition mask32 : Z := 4294967295.

Definition add32 (a b : Z) : Z := Z.land (a + b) mask32.

Definition not32 (a : Z) : Z := Z.lxor a mask32.

Definition rotl32 (x c : Z) : Z :=
  Z.land (Z.lor (Z.shiftl x c) (Z.shiftr x (32 - c))) mask32.

Definition md5_shifts : list Z :=
  [ 7; 12; 17; 22; 7; 12; 17; 22; 7; 12; 17; 22; 7; 12; 17; 22;
    5; 9; 14; 20; 5; 9; 14; 20; 5; 9; 14; 20; 5; 9; 14; 20;
    4; 11; 16; 23; 4; 11; 16; 23; 4; 11; 16; 23; 4; 11; 16; 23;
    6; 10; 15; 21; 6; 10; 15; 21; 6; 10; 15; 21; 6; 10; 15; 21 ]%Z.

Definition md5_K : list Z :=
  [ 0xd76aa478; 0xe8c7b756; 0x242070db; 0xc1bdceee;
    0xf57c0faf; 0x4787c62a; 0xa8304613; 0xfd469501;
    0x698098d8; 0x8b44f7af; 0xffff5bb1; 0x895cd7be;
    0x6b901122; 0xfd987193; 0xa679438e; 0x49b40821;
    0xf61e2562; 0xc040b340; 0x265e5a51; 0xe9b6c7aa;
    0xd62f105d; 0x02441453; 0xd8a1e681; 0xe7d3fbc8;
    0x21e1cde6; 0xc33707d6; 0xf4d50d87; 0x455a14ed;
    0xa9e3e905; 0xfcefa3f8; 0x676f02d9; 0x8d2a4c8a;
    0xfffa3942; 0x8771f681; 0x6d9d6122; 0xfde5380c;
    0xa4beea44; 0x4bdecfa9; 0xf6bb4b60; 0xbebfbc70;
    0x289b7ec6; 0xeaa127fa; 0xd4ef3085; 0x04881d05;
    0xd9d4d039; 0xe6db99e5; 0x1fa27cf8; 0xc4ac5665;
    0xf4292244; 0x432aff97; 0xab9423a7; 0xfc93a039;
    0x655b59c3; 0x8f0ccc92; 0xffeff47d; 0x85845dd1;
    0x6fa87e4f; 0xfe2ce6e0; 0xa3014314; 0x4e0811a1;
    0xf7537e82; 0xbd3af235; 0x2ad7d2bb; 0xeb86d391 ]%Z.

(** A little-endian number from its bytes, and back. *)
Definition le_num (bs : list Z) : Z :=
  foldr (fun b acc => (b + 256 * acc)%Z) 0%Z bs.

Fixpoint le_bytes (n : nat) (x : Z) : list Z :=
  match n with
  | O => []
  | S n' => (x mod 256)%Z :: le_bytes n' (x / 256)%Z
  end.

Fixpoint chunks {A : Type} (fuel size : nat) (l : list A) : list (list A) :=
  match fuel with
  | O => []
  | S fuel' =>
      match l with
      | [] => []
      | _ => take size l :: chunks fuel' size (drop size l)
      end
  end.

(** The message, a 1 bit, zeros up to 56 modulo 64, the bit length on 8 bytes. *)
Definition md5_pad (msg : list Z) : list Z :=
  let len := length msg in
  let zeros := ((55 + 64 - len mod 64) mod 64)%nat in
  msg ++ [128%Z] ++ replicate zeros 0%Z
      ++ le_bytes 8 ((8 * Z.of_nat len) mod 2 ^ 64)%Z.

Abbreviation md5_state := (Z * Z * Z * Z)%type (only parsing).

Definition md5_init : md5_state :=
  (0x67452301, 0xefcdab89, 0x98badcfe, 0x10325476)%Z.

Definition md5_round (M : list Z) (st : md5_state) (i : nat) : md5_state :=
  let '(A, B, C, D) := st in
  let '(F, g) :=
    if (i <? 16)%nat then
      (Z.lor (Z.land B C) (Z.land (not32 B) D), i)
    else if (i <? 32)%nat then
      (Z.lor (Z.land D B) (Z.land (not32 D) C), ((5 * i + 1) mod 16)%nat)
    else if (i <? 48)%nat then
      (Z.lxor (Z.lxor B C) D, ((3 * i + 5) mod 16)%nat)
    else
      (Z.lxor C (Z.lor B (not32 D)), ((7 * i) mod 16)%nat) in
  let F' := add32 (add32 (add32 F A) (md5_K !!! i)) (M !!! g) in
  (D, add32 B (rotl32 F' (md5_shifts !!! i)), B, C).

Definition md5_block (st : md5_state) (block : list Z) : md5_state :=
  let M := map le_num (chunks 16 4 block) in
  let '(A, B, C, D) := foldl (md5_round M) st (seq 0 64) in
  let '(a0, b0, c0, d0) := st in
  (add32 a0 A, add32 b0 B, add32 c0 C, add32 d0 D).

Definition md5_digest (msg : list Z) : md5_state :=
  let padded := md5_pad msg in
  foldl md5_block md5_init (chunks (length padded) 64 padded).

Definition hex_digit (x : Z) : ascii :=
  match x with
  | 0 => "0" | 1 => "1" | 2 => "2" | 3 => "3" | 4 => "4" | 5 => "5"
  | 6 => "6" | 7 => "7" | 8 => "8" | 9 => "9" | 10 => "a" | 11 => "b"
  | 12 => "c" | 13 => "d" | 14 => "e" | _ => "f"
  end%Z%char.

Definition hex_byte (b : Z) : string :=
  String (hex_digit (b / 16)) (String (hex_digit (b mod 16)) "").

Definition hexdigest (st : md5_state) : string :=
  let '(A, B, C, D) := st in
  String.concat ""
    (map hex_byte (le_bytes 4 A ++ le_bytes 4 B ++ le_bytes 4 C ++ le_bytes 4 D)).

(** [s.encode()] on a byte string. *)
Definition encode (s : string) : list Z :=
  map (fun c => Z.of_N (N_of_ascii c)) (list_ascii_of_string s).

Definition md5_hex (s : string) : string := hexdigest (md5_digest (encode s)).

Definition get_cache_key (point : Q * Q) (dist : Z) (network_type : string)
    (enabled_features : list (string * bool)) : string :=
  md5_hex (key_string point dist network_type enabled_features).

(** ** The fetched data *)

(** A node's attribute dict: only [x] and [y] are read, and either may be
    missing. *)
Record node_data : Type := { node_x : option Q; node_y : option Q }.

(** The [highway] tag of an edge: a string or a list of strings. *)
Inductive tag_value : Type :=
  | TagStr (s : string)
  | TagList (l : list string).

Record edge : Type :=
  { edge_u : Z; edge_v : Z; edge_highway : option tag_value }.

(** The street network: [G.nodes] is a dict, [G.edges] a sequence (a
    multigraph keeps parallel edges). *)
Record graph : Type := { nodes : gmap Z node_data; edges : list edge }.

Abbreviation coord := (Q * Q)%type (only parsing).

Record polygon : Type :=
  { exterior : list coord; interiors : list (list coord) }.

Inductive geometry : Type :=
  | Point (c : coord)
  | MultiPoint (cs : list coord)
  | LineString (cs : list coord)
  | MultiLineString (ls : list (list coord))
  | Polygon (p : polygon)
  | MultiPolygon (ps : list polygon).

Definition geom_type (g : geometry) : string :=
  match g with
  | Point _ => "Point"
  | MultiPoint _ => "MultiPoint"
  | LineString _ => "LineString"
  | MultiLineString _ => "MultiLineString"
  | Polygon _ => "Polygon"
  | MultiPolygon _ => "MultiPolygon"
  end.

(** A GeoDataFrame, by its geometry column; a row may have no geometry. *)
Abbreviation gdf := (list (option geometry)) (only parsing).

(** The 11-tuple that is cached and unpacked. *)
Record dataset : Type :=
  { d_G : graph;
    d_water : option gdf;
    d_parks : option gdf;
    d_stadiums : option gdf;
    d_railways : option gdf;
    d_forests : option gdf;
    d_beaches : option gdf;
    d_coastlines : option gdf;
    d_education : option gdf;
    d_worship : option gdf;
    d_airports : option gdf }.

(** ** CacheStore: the files *)

(** A file of the cache directory: a pickle of a dataset, or bytes that
    [open] or [pickle.load] fail on. *)
Inductive cache_file : Type :=
  | Pickled (data : dataset)
  | Corrupt.

Definition cache_path (cache_key : string) : string := cache_key +:+ ".pkl".

Definition pickle_load (f : cache_file) : result dataset :=
  match f with
  | Pickled data => Ok data
  | Corrupt => Raise ValueError
  end.

Definition load_from_cache (cache_dir : gmap string cache_file)
    (cache_key : string) : option dataset :=
  match cache_dir !! cache_path cache_key with
  | Some f => try_except (data ← pickle_load f; Ok (Some data)) None
  | None => None
  end.

(** How the write of [save_to_cache] ends: done, [open] fails, or
    [pickle.dump] fails after the file was truncated. *)
Inductive write_outcome : Type :=
  | Written
  | OpenFails
  | DumpFails.

Definition save_to_cache (cache_dir : gmap string cache_file)
    (cache_key : string) (data : dataset) (w : write_outcome)
    : gmap string cache_file :=
  match w with
  | Written => <[cache_path cache_key := Pickled data]> cache_dir
  | OpenFails => cache_dir
  | DumpFails => <[cache_path cache_key := Corrupt]> cache_dir
  end.

(** The DataFetcher: the two osmnx calls. A feature request is named by the
    feature it serves. *)
Record fetcher : Type :=
  { graph_from_point : Q * Q -> Z -> string -> result graph;
    features_from_point : Q * Q -> string -> Z -> result gdf }.

(** [enabled_features[name]]. *)
Definition feature_enabled (enabled_features : list (string * bool))
    (name : string) : bool :=
  default false ((list_to_map enabled_features : gmap string bool) !! name).

(** One conditional fetch: [None] when the feature is off or the request
    raises. *)
Definition fetch_feature (F : fetcher) (point : Q * Q) (dist : Z)
    (enabled_features : list (string * bool)) (name : string) : option gdf :=
  if feature_enabled enabled_features name then
    try_except (g ← features_from_point F point name dist; Ok (Some g)) None
  else None.

(** The requests a fresh download issues, in order. *)
Definition fetch_requests (enabled_features : list (string * bool)) : list string :=
  "streets"%string ::
  filter (fun name => feature_enabled enabled_features name = true)
    [ "water"; "parks"; "stadiums"; "railway"; "forest"; "beach";
      "coastline"; "education"; "worship"; "airport" ]%string.

Definition download (F : fetcher) (point : Q * Q) (dist : Z)
    (network_type : string) (enabled_features : list (string * bool))
    : result dataset :=
  G ← graph_from_point F point dist network_type;
  let get := fetch_feature F point dist enabled_features in
  Ok {| d_G := G;
        d_water := get "water"%string;
        d_parks := get "parks"%string;
        d_stadiums := get "stadiums"%string;
        d_railways := get "railway"%string;
        d_forests := get "forest"%string;
        d_beaches := get "beach"%string;
        d_coastlines := get "coastline"%string;
        d_education := get "education"%string;
        d_worship := get "worship"%string;
        d_airports := get "airport"%string |}.

(** What the first part of [create_poster] leaves behind: the data to
    render, the requests sent to the fetcher, the cache directory. *)
Record acquired : Type :=
  { acq_data : dataset;
    acq_requests : list string;
    acq_cache_dir : gmap string cache_file }.

Definition acquire (F : fetcher) (cache_dir : gmap string cache_file)
    (w : write_outcome) (theme : gmap string json) (point : Q * Q) (dist : Z)
    (use_cache : bool) (network_type : string) : result acquired :=
  let enabled_features := get_enabled_features theme in
  let cache_key := get_cache_key point dist network_type enabled_features in
  let cached_data :=
    if use_cache then load_from_cache cache_dir cache_key else None in
  match cached_data with
  | Some data =>
      Ok {| acq_data := data; acq_requests := []; acq_cache_dir := cache_dir |}
  | None =>
      data ← download F point dist network_type enabled_features;
      Ok {| acq_data := data;
            acq_requests := fetch_requests enabled_features;
            acq_cache_dir :=
              if use_cache then save_to_cache cache_dir cache_key data w
              else cache_dir |}
  end.

(** ** RoadClassifier *)

(** [data.get('highway', 'unclassified')], then the first element of a list. *)
Definition highway_of (tag : option tag_value) : string :=
  match tag with
  | None => "unclassified"
  | Some (TagStr s) => s
  | Some (TagList l) =>
      match l with
      | s :: _ => s
      | [] => "unclassified"
      end
  end.

(** [x in [...]] on strings. *)
Definition str_in (x : string) (l : list string) : bool := bool_decide (x ∈ l).

(** The theme key chosen in [get_edge_colors_by_type]. *)
Definition road_key (highway : string) : string :=
  if str_in highway [ "motorway"; "motorway_link" ] then "road_motorway"
  else if str_in highway [ "trunk"; "trunk_link"; "primary"; "primary_link" ]
  then "road_primary"
  else if str_in highway [ "secondary"; "secondary_link" ] then "road_secondary"
  else if str_in highway [ "tertiary"; "tertiary_link" ] then "road_tertiary"
  else if str_in highway [ "residential"; "living_street"; "unclassified" ]
  then "road_residential"
  else "road_default".

(** The width chosen in [get_edge_widths_by_type]. *)
Definition road_width (highway : string) : Q :=
  if str_in highway [ "motorway"; "motorway_link" ] then 1.2
  else if str_in highway [ "trunk"; "trunk_link"; "primary"; "primary_link" ]
  then 1.0
  else if str_in highway [ "secondary"; "secondary_link" ] then 0.8
  else if str_in highway [ "tertiary"; "tertiary_link" ] then 0.6
  else 0.4.

Definition get_edge_widths_by_type (G : graph) : list Q :=
  map (fun e => road_width (highway_of (edge_highway e))) (edges G).

(** The spec's [RoadClass] and its table, for comparison with the code. *)
Inductive RoadClass : Type :=
  | motorway
  | primary
  | secondary
  | tertiary
  | residential
  | default_class.

Definition class_key (c : RoadClass) : string :=
  match c with
  | motorway => "road_motorway"
  | primary => "road_primary"
  | secondary => "road_secondary"
  | tertiary => "road_tertiary"
  | residential => "road_residential"
  | default_class => "road_default"
  end.

Definition widthFor (c : RoadClass) : Q :=
  match c with
  | motorway => 1.2
  | primary => 1.0
  | secondary => 0.8
  | tertiary => 0.6
  | _ => 0.4
  end.

(** The classification table in the spec's words: the tag's first element
    when it is a sequence, "unclassified" when that is empty or the tag is
    absent, then the first matching row. *)
Definition spec_classify (tag : option tag_value) : RoadClass :=
  let t :=
    match tag with
    | None => "unclassified"
    | Some (TagStr s) => s
    | Some (TagList []) => "unclassified"
    | Some (TagList (s :: _)) => s
    end%string in
  if decide (t = "motorway" \/ t = "motorway_link") then motorway
  else if decide (t = "trunk" \/ t = "trunk_link" \/ t = "primary"
                  \/ t = "primary_link") then primary
  else if decide (t = "secondary" \/ t = "secondary_link") then secondary
  else if decide (t = "tertiary" \/ t = "tertiary_link") then tertiary
  else if decide (t = "residential" \/ t = "living_street"
                  \/ t = "unclassified") then residential
  else default_class.

(** ** ColorResolver *)

Abbreviation rgba := (Q * Q * Q * Q)%type (only parsing).

Definition hex_val (c : ascii) : option Z :=
  let n := Z.of_N (N_of_ascii c) in
  if ((48 <=? n) && (n <=? 57))%Z then Some (n - 48)%Z
  else if ((97 <=? n) && (n <=? 102))%Z then Some (n - 87)%Z
  else if ((65 <=? n) && (n <=? 70))%Z then Some (n - 55)%Z
  else None.

Definition channel (hi lo : Z) : Q := (inject_Z (16 * hi + lo) / 255)%Q.

(** The hex forms of a colour: [#rgb], [#rgba], [#rrggbb], [#rrggbbaa]. *)
Definition hex_color (digits : list Z) : option rgba :=
  match digits with
  | [r; g; b] => Some (channel r r, channel g g, channel b b, 1%Q)
  | [r; g; b; a] => Some (channel r r, channel g g, channel b b, channel a a)
  | [r1; r2; g1; g2; b1; b2] =>
      Some (channel r1 r2, channel g1 g2, channel b1 b2, 1%Q)
  | [r1; r2; g1; g2; b1; b2; a1; a2] =>
      Some (channel r1 r2, channel g1 g2, channel b1 b2, channel a1 a2)
  | _ => None
  end.

(** A colormap is kept as its stop colours; the 256-entry lookup table is
    computed from them when the map is called. *)
Abbreviation cmap := (list rgba) (only parsing).

Definition chan_r (c : rgba) : Q := c.1.1.1.
Definition chan_g (c : rgba) : Q := c.1.1.2.
Definition chan_b (c : rgba) : Q := c.1.2.
Definition chan_a (c : rgba) : Q := c.2.

Definition clip01 (x : Q) : Q := Qmax 0 (Qmin 1 x).

(** One channel of the lookup table of [LinearSegmentedColormap]: the stops
    sit at [j * 255 / (n - 1)]; entry 0 is the first stop, entry 255 the last,
    entry [i] in between is interpolated inside the segment that
    [searchsorted] finds, and the table is clipped to [0, 1]. *)
Definition lut_channel (ys : list Q) (i : nat) : Q :=
  let n := length ys in
  let y j := default 0%Q (ys !! j) in
  let x j := (inject_Z (Z.of_nat j) * 255 / inject_Z (Z.of_nat (n - 1)))%Q in
  let v :=
    if (i =? 0)%nat then y 0%nat
    else if (255 <=? i)%nat then y (n - 1)%nat
    else
      let ind :=
        length (List.filter
                  (fun j => negb (Qle_bool (inject_Z (Z.of_nat i)) (x j)))
                  (seq 0 n)) in
      let distance :=
        ((inject_Z (Z.of_nat i) - x (ind - 1)%nat) / (x ind - x (ind - 1)%nat))%Q in
      (distance * (y ind - y (ind - 1)%nat) + y (ind - 1)%nat)%Q in
  clip01 v.

Definition lut (stops : cmap) (i : nat) : rgba :=
  (lut_channel (map chan_r stops) i, lut_channel (map chan_g stops) i,
   lut_channel (map chan_b stops) i, lut_channel (map chan_a stops) i).

(** The table index of a float in a 256-entry colormap: [x * 256] truncated,
    256 itself counted as 255, values below and above mapped to the ends. *)
Definition lut_index (x : Q) : nat :=
  Z.to_nat (Z.max 0 (Z.min 255 (Qfloor (x * 256)))).

(** Calling a colormap built by [from_list]: a table cannot be built from
    fewer than two stops. *)
Definition cmap_call (stops : cmap) (x : Q) : result rgba :=
  if (length stops <? 2)%nat then Raise ValueError
  else Ok (lut stops (lut_index x)).

(** Float division. *)
Definition py_div (a b : Q) : result Q :=
  if Qeq_bool b 0 then Raise ZeroDivisionError else Ok (a / b)%Q.

(** [a or 1.0] on a float. *)
Definition or_one (a : Q) : Q := if Qeq_bool a 0 then 1%Q else a.

Definition list_min (l : list Q) : option Q :=
  match l with
  | [] => None
  | x :: l' => Some (foldl Qmin x l')
  end.

Definition list_max (l : list Q) : option Q :=
  match l with
  | [] => None
  | x :: l' => Some (foldl Qmax x l')
  end.

(** What is handed to the final [mcolors.to_rgba]: a theme value, or the
    tuple a colormap returned. *)
Inductive color_value : Type :=
  | ColJson (j : json)
  | ColTuple (c : rgba).

Abbreviation bounds_t := (Q * Q * Q * Q)%type (only parsing).

(** ** Area layers *)

Inductive path_code : Type :=
  | MOVETO
  | LINETO
  | CLOSEPOLY.

(** A matplotlib [Path]: vertices and codes of the same length. *)
Record path : Type := { verts : list coord; codes : list path_code }.

Definition Path (vs : list coord) (cs : list path_code) : result path :=
  if (length vs =? length cs)%nat then Ok {| verts := vs; codes := cs |}
  else Raise ValueError.

(** One ring: nothing for an empty ring, else MOVETO, LINETO..., CLOSEPOLY. *)
Definition ring_path (coords : list coord) : list coord * list path_code :=
  match coords with
  | [] => ([], [])
  | _ => (coords, [MOVETO] ++ replicate (length coords - 2) LINETO ++ [CLOSEPOLY])
  end.

Definition is_empty (g : geometry) : bool :=
  match g with
  | Point _ => false
  | MultiPoint cs => bool_decide (length cs = 0%nat)
  | LineString cs => bool_decide (length cs = 0%nat)
  | MultiLineString ls => forallb (fun l => bool_decide (length l = 0%nat)) ls
  | Polygon p => bool_decide (length (exterior p) = 0%nat)
  | MultiPolygon ps =>
      forallb (fun p => bool_decide (length (exterior p) = 0%nat)) ps
  end.

(** The polygons a row contributes in [geoms_to_path]. *)
Definition row_polygons (row : option geometry) : list polygon :=
  match row with
  | None => []
  | Some geom =>
      if is_empty geom then []
      else
        match geom with
        | Polygon p => [p]
        | MultiPolygon ps => ps
        | _ => []
        end
  end.

Definition geoms_to_path (geoms : gdf) : result (option path) :=
  let rings :=
    concat (map (fun p => ring_path (exterior p) :: map ring_path (interiors p))
                (concat (map row_polygons geoms))) in
  let vs := concat (map fst rings) in
  let cs := concat (map snd rings) in
  match vs with
  | [] => Ok None
  | _ => p ← Path vs cs; Ok (Some p)
  end.

Definition area_features : list string := [ "Polygon"; "MultiPolygon" ]%string.

(** [filter_geom]: the rows whose geometry type is one of [geom_types]; a
    row without geometry has no type. *)
Definition filter_geom (g : option gdf) (geom_types : list string) : option gdf :=
  match g with
  | None => None
  | Some [] => Some []
  | Some rows =>
      Some (List.filter
              (fun row =>
                 match row with
                 | Some geom => str_in (geom_type geom) geom_types
                 | None => false
                 end) rows)
  end.

(** [np.linspace(a, b, n)]. *)
Definition linspace (a b : Q) (n : nat) : list Q :=
  map (fun i => (a + inject_Z (Z.of_nat i) * (b - a) / inject_Z (Z.of_nat (n - 1)))%Q)
      (seq 0 n).

(** What a layer puts on the axes. *)
Inductive draw_op : Type :=
  | Fill (rows : gdf) (facecolor : rgba) (alpha zorder : Q)
  | ClipPatch (p : path) (zorder : Q)
  | Image (img : list (list rgba)) (extent : Q * Q * Q * Q) (alpha zorder : Q)
          (clip : path).

(** One band of the vignette: the rows of the image from the bottom up
    ([origin='lower']), and where it is put. *)
Record fade : Type :=
  { fade_rows : list rgba;
    fade_extent : Q * Q * Q * Q;
    fade_zorder : Q }.

Definition num_of (j : json) : option Q :=
  match j with
  | JNum q => Some q
  | JBool true => Some 1%Q
  | JBool false => Some 0%Q
  | _ => None
  end.

Definition in_unit (q : Q) : bool := Qle_bool 0 q && Qle_bool q 1.

Section Rendering.

(** The table of colour names of matplotlib (and its other non-hex string
    forms) is not part of the repository: a parameter. *)
Variable named_color : string -> option rgba.

(** [mcolors.to_rgba] on a string. *)
Definition to_rgba (s : string) : option rgba :=
  match s with
  | String c rest =>
      if Ascii.eqb c "#" then
        digits ← mapM hex_val (list_ascii_of_string rest); hex_color digits
      else named_color s
  | EmptyString => named_color s
  end.

(** [mcolors.to_rgba] on a value: a colour string, or three or four numbers
    between 0 and 1. *)
Definition to_rgba_value (c : color_value) : result rgba :=
  match c with
  | ColJson (JStr s) => of_option ValueError (to_rgba s)
  | ColJson (JList l) =>
      match mapM num_of l with
      | Some [r; g; b] =>
          if in_unit r && in_unit g && in_unit b then Ok (r, g, b, 1%Q)
          else Raise ValueError
      | Some [r; g; b; a] =>
          if in_unit r && in_unit g && in_unit b && in_unit a
          then Ok (r, g, b, a)
          else Raise ValueError
      | _ => Raise ValueError
      end
  | ColJson _ => Raise ValueError
  | ColTuple t => Ok t
  end.

(** [LinearSegmentedColormap.from_list] on a sequence of colour strings. *)
Definition from_list (colors : list string) : result cmap :=
  match colors with
  | [] => Raise IndexError
  | _ => of_option ValueError (mapM to_rgba colors)
  end.

(** The [colors] entry of a gradient, as the key of [CMAP_CACHE]: a list of
    strings becomes a tuple of strings. Anything else fails at the lookup
    (not hashable) or inside [from_list]; only the fact that it raises
    matters to the callers. *)
Definition colors_arg (v : json) : result (list string) :=
  match v with
  | JList l =>
      of_option TypeError
        (mapM (fun j => match j with JStr s => Some s | _ => None end) l)
  | _ => Raise TypeError
  end.

Definition default_colors : json := JList [JStr "#000000"; JStr "#FFFFFF"].

(** [get_cached_cmap], with the global [CMAP_CACHE] passed along. *)
Definition get_cached_cmap (CMAP_CACHE : gmap (list string) cmap)
    (colors : list string) : result cmap * gmap (list string) cmap :=
  match CMAP_CACHE !! colors with
  | Some c => (Ok c, CMAP_CACHE)
  | None =>
      match from_list colors with
      | Ok c => (Ok c, <[colors := c]> CMAP_CACHE)
      | Raise e => (Raise e, CMAP_CACHE)
      end
  end.

(** The bounds used by [get_edge_colors_by_type]: the argument, or else the
    extent of the nodes, or else the unit square. *)
Definition node_bounds (G : graph) : result bounds_t :=
  let ns := map snd (map_to_list (nodes G)) in
  x_vals ← of_option KeyError (mapM node_x ns);
  y_vals ← of_option KeyError (mapM node_y ns);
  match list_min x_vals, list_max x_vals, list_min y_vals, list_max y_vals with
  | Some minx, Some maxx, Some miny, Some maxy => Ok (minx, miny, maxx, maxy)
  | _, _, _, _ => Ok (0, 0, 1, 1)%Q
  end.

Definition effective_bounds (G : graph) (bounds : option bounds_t) : bounds_t :=
  match bounds with
  | Some b => b
  | None => try_except (node_bounds G) (0, 0, 1, 1)%Q
  end.

Definition bounds_width (b : bounds_t) : Q :=
  let '(minx, miny, maxx, maxy) := b in or_one (maxx - minx).

Definition bounds_height (b : bounds_t) : Q :=
  let '(minx, miny, maxx, maxy) := b in or_one (maxy - miny).

(** The normalised, clamped position of an edge's midpoint. *)
Definition edge_position (G : graph) (b : bounds_t) (params : gmap string json)
    (u v : Z) : result Q :=
  let '(minx, miny, maxx, maxy) := b in
  u_node ← of_option KeyError (nodes G !! u);
  v_node ← of_option KeyError (nodes G !! v);
  ux ← of_option KeyError (node_x u_node);
  vx ← of_option KeyError (node_x v_node);
  let mid_x := ((ux + vx) / 2)%Q in
  uy ← of_option KeyError (node_y u_node);
  vy ← of_option KeyError (node_y v_node);
  let mid_y := ((uy + vy) / 2)%Q in
  let direction := dict_get params "direction" (JStr "vertical") in
  pos ← (if json_is_str (Some direction) "vertical"
         then py_div (mid_y - miny) (bounds_height b)
         else py_div (mid_x - minx) (bounds_width b));
  Ok (Qmax 0 (Qmin 1 pos)).

(** The body of the [try] block of the gradient path. *)
Definition sample_gradient (CMAP_CACHE : gmap (list string) cmap) (G : graph)
    (b : bounds_t) (params : json) (u v : Z)
    : result rgba * gmap (list string) cmap :=
  match params with
  | JDict p =>
      match edge_position G b p u v with
      | Raise e => (Raise e, CMAP_CACHE)
      | Ok pos =>
          match colors_arg (dict_get p "colors" default_colors) with
          | Raise e => (Raise e, CMAP_CACHE)
          | Ok colors =>
              let '(c, cache') := get_cached_cmap CMAP_CACHE colors in
              (c ← c; cmap_call c pos, cache')
          end
      end
  | _ => (Raise AttributeError, CMAP_CACHE)
  end.

(** One iteration of the loop over the edges. *)
Definition edge_color (theme : gmap string json) (G : graph) (b : bounds_t)
    (CMAP_CACHE : gmap (list string) cmap) (e : edge)
    : result rgba * gmap (list string) cmap :=
  let highway := highway_of (edge_highway e) in
  let key := road_key highway in
  let config := dict_get theme key (JStr "#3A3A3A") in
  let '(is_gradient, params) := parse_color_config config in
  if negb is_gradient then (to_rgba_value (ColJson params), CMAP_CACHE)
  else
    let '(r, cache') :=
      sample_gradient CMAP_CACHE G b params (edge_u e) (edge_v e) in
    let color := try_except (c ← r; Ok (ColTuple c)) (ColJson (JStr "#000000")) in
    (to_rgba_value color, cache').

Fixpoint edge_colors_loop (theme : gmap string json) (G : graph) (b : bounds_t)
    (CMAP_CACHE : gmap (list string) cmap) (es : list edge)
    : result (list rgba) * gmap (list string) cmap :=
  match es with
  | [] => (Ok [], CMAP_CACHE)
  | e :: es' =>
      match edge_color theme G b CMAP_CACHE e with
      | (Raise err, cache') => (Raise err, cache')
      | (Ok c, cache') =>
          let '(r, cache'') := edge_colors_loop theme G b cache' es' in
          (cs ← r; Ok (c :: cs), cache'')
      end
  end.

Definition get_edge_colors_by_type (theme : gmap string json)
    (CMAP_CACHE : gmap (list string) cmap) (G : graph)
    (bounds : option bounds_t)
    : result (list rgba) * gmap (list string) cmap :=
  edge_colors_loop theme G (effective_bounds G bounds) CMAP_CACHE (edges G).

(** [create_gradient_array]: a [height] by [width] image of the colormap
    along one axis. The stops are colour strings, as theme files have them. *)
Definition create_gradient_array (width height : nat) (colors direction : json)
    : result (list (list rgba)) :=
  cs ← colors_arg colors;
  stops ← from_list cs;
  if json_is_str (Some direction) "vertical" then
    mapM (fun v => c ← cmap_call stops v; Ok (replicate width c))
         (linspace 0 1 height)
  else
    row ← mapM (cmap_call stops) (linspace 0 1 width);
    Ok (replicate height row).

(** [plot_feature], with the axes limits as arguments and the drawing calls
    as result. *)
Definition plot_feature (theme : gmap string json) (xlim ylim : Q * Q)
    (g : option gdf) (theme_key fallback_color : string) (zorder alpha : Q)
    : result (list draw_op) :=
  match g with
  | None => Ok []
  | Some [] => Ok []
  | Some rows =>
      let config := dict_get theme theme_key (JStr fallback_color) in
      let '(is_gradient, params) := parse_color_config config in
      if negb is_gradient then
        facecolor ← to_rgba_value (ColJson params);
        Ok [Fill rows facecolor alpha zorder]
      else
        p ← geoms_to_path rows;
        match p, params with
        | None, _ => Ok []
        | Some p, JDict d =>
            let colors := dict_get d "colors" default_colors in
            let direction := dict_get d "direction" (JStr "vertical") in
            grad_img ← create_gradient_array 512 512 colors direction;
            Ok [ClipPatch p zorder;
                Image grad_img (xlim.1, xlim.2, ylim.1, ylim.2) alpha zorder p]
        | Some _, _ => Raise AttributeError
        end
  end.

(** The six area layers of [create_poster], filtered first and drawn in the
    order of the source. The stroke and marker layers between them are left
    out. *)
Definition area_layers (theme : gmap string json) (xlim ylim : Q * Q)
    (data : dataset) : result (list draw_op) :=
  let water := filter_geom (d_water data) area_features in
  let parks := filter_geom (d_parks data) area_features in
  let forests := filter_geom (d_forests data) area_features in
  let beaches := filter_geom (d_beaches data) area_features in
  let education := filter_geom (d_education data) area_features in
  let airports := filter_geom (d_airports data) area_features in
  l1 ← plot_feature theme xlim ylim forests "forest" "#228B22" 1 1;
  l2 ← plot_feature theme xlim ylim beaches "beach" "#F4A460" 1.2 1;
  l3 ← plot_feature theme xlim ylim water "water" "#C0C0C0" 1.5 1;
  l4 ← plot_feature theme xlim ylim parks "parks" "#F0F0F0" 2 1;
  l5 ← plot_feature theme xlim ylim airports "airport" "#D3D3D3" 2.2 0.6;
  l6 ← plot_feature theme xlim ylim education "education" "#FFD700" 2.3 0.5;
  Ok (l1 ++ l2 ++ l3 ++ l4 ++ l5 ++ l6).

(** ** Vignette *)

(** [create_gradient_fade]: 256 rows of the fade colour whose opacity runs
    along [np.linspace], shown through a [ListedColormap] over the band. *)
Definition create_gradient_fade (xlim ylim : Q * Q) (color : json)
    (location : string) (zorder : Q) : result fade :=
  let vals := linspace 0 1 256 in
  rgb ← to_rgba_value (ColJson color);
  let my_colors alphas :=
    map (fun a => (chan_r rgb, chan_g rgb, chan_b rgb, a)) alphas in
  let '(colors, extent_y_start, extent_y_end) :=
    if bool_decide (location = "bottom")
    then (my_colors (linspace 1 0 256), 0%Q, 0.25%Q)
    else (my_colors (linspace 0 1 256), 0.75%Q, 1.0%Q) in
  let y_range := (ylim.2 - ylim.1)%Q in
  let y_bottom := (ylim.1 + y_range * extent_y_start)%Q in
  let y_top := (ylim.1 + y_range * extent_y_end)%Q in
  Ok {| fade_rows :=
          map (fun v => default (0, 0, 0, 0)%Q (colors !! lut_index v)) vals;
        fade_extent := (xlim.1, xlim.2, y_bottom, y_top);
        fade_zorder := zorder |}.

(** The two fades of [create_poster]. *)
Definition vignette (theme : gmap string json) (xlim ylim : Q * Q)
    : result (fade * fade) :=
  c ← of_option KeyError (theme !! "gradient_color");
  bottom ← create_gradient_fade xlim ylim c "bottom" 10;
  c' ← of_option KeyError (theme !! "gradient_color");
  top ← create_gradient_fade xlim ylim c' "top" 10;
  Ok (bottom, top).

End Rendering.

(** What the rest of [create_poster] sees of an acquisition: the data and
    the requests made for it. *)
Definition acq_view (r : result acquired) : result (dataset * list string) :=
  a ← r; Ok (acq_data a, acq_requests a).

(** The test of [filter_geom] with [area_features], on the geometry itself. *)
Definition is_area_row (row : option geometry) : bool :=
  match row with
  | Some (Polygon _) | Some (MultiPolygon _) => true
  | _ => false
  end.

(** A collection that leaves an area layer nothing to draw: absent, or
    without a polygon row. *)
Definition no_area (g : option gdf) : Prop :=
  match g with
  | None => True
  | Some rows => Forall (fun row => is_area_row row = false) rows
  end.

(** ** Sample values, used to run the definitions *)

Definition sample_graph : graph :=
  {| nodes := {[ 1%Z := {| node_x := Some 0%Q; node_y := Some 0%Q |};
                 2%Z := {| node_x := Some 2%Q; node_y := Some 4%Q |} ]};
     edges := [ {| edge_u := 1; edge_v := 1; edge_highway := Some (TagStr "motorway") |};
                {| edge_u := 1; edge_v := 2; edge_highway := Some (TagStr "motorway") |};
                {| edge_u := 2; edge_v := 2; edge_highway := Some (TagStr "motorway") |};
                {| edge_u := 1; edge_v := 2; edge_highway := None |} ] |}.

(** A fetcher whose street request succeeds and whose feature requests all
    fail. *)
Definition sample_fetcher : fetcher :=
  {| graph_from_point := fun _ _ _ => Ok sample_graph;
     features_from_point := fun _ _ _ => Raise OSError |}.

(** No colour names: hex strings only. *)
Definition no_names : string -> option rgba := fun _ => None.

(** The theme keys that [get_edge_colors_by_type] can look up. *)
Definition road_keys : list string :=
  [ "road_motorway"; "road_primary"; "road_secondary"; "road_tertiary";
    "road_residential"; "road_default" ]%string.

Definition is_ok {A : Type} (r : result A) : bool :=
  match r with
  | Ok _ => true
  | Raise _ => false
  end.

(** Every road key that the theme sets to a solid value sets it to a colour. *)
Definition road_colors_ok (named_color : string -> option rgba)
    (theme : gmap string json) : bool :=
  forallb
    (fun key =>
       let '(is_gradient, params) :=
         parse_color_config (dict_get theme key (JStr "#3A3A3A")) in
       is_gradient || is_ok (to_rgba_value named_color (ColJson params)))
    road_keys.

(** The midpoint of an edge, when both ends have coordinates. *)
Definition midpoint (G : graph) (u v : Z) : option (Q * Q) :=
  u_node ← nodes G !! u;
  v_node ← nodes G !! v;
  ux ← node_x u_node;
  vx ← node_x v_node;
  uy ← node_y u_node;
  vy ← node_y v_node;
  Some ((ux + vx) / 2, (uy + vy) / 2)%Q.

(** Whether a gradient's parameters say "vertical" (the default). *)
Definition is_vertical (params : gmap string json) : bool :=
  json_is_str (Some (dict_get params "direction" (JStr "vertical"))) "vertical".

(** The midpoint's coordinate along the gradient axis, and the bounds'
    minimum and maximum along it. *)
Definition axis_of (vertical : bool) (xy : Q * Q) : Q :=
  if vertical then xy.2 else xy.1.

Definition axis_min (vertical : bool) (b : bounds_t) : Q :=
  let '(minx, miny, maxx, maxy) := b in if vertical then miny else minx.

Definition axis_max (vertical : bool) (b : bounds_t) : Q :=
  let '(minx, miny, maxx, maxy) := b in if vertical then maxy else maxx.

(** The position in the spec's words: normalise along the axis, clamp. *)
Definition normalized_position (vertical : bool) (b : bounds_t) (xy : Q * Q) : Q :=
  Qmax 0 (Qmin 1 ((axis_of vertical xy - axis_min vertical b)
                  / (axis_max vertical b - axis_min vertical b))).

Definition nondegenerate (b : bounds_t) : Prop :=
  let '(minx, miny, maxx, maxy) := b in (minx < maxx)%Q /\ (miny < maxy)%Q.

(** Colours up to the value of their channels. *)
Definition rgba_eq (c1 c2 : rgba) : Prop :=
  chan_r c1 == chan_r c2 /\ chan_g c1 == chan_g c2
  /\ chan_b c1 == chan_b c2 /\ chan_a c1 == chan_a c2.

Definition rgba_unit (c : rgba) : Prop :=
  (0 <= chan_r c <= 1)%Q /\ (0 <= chan_g c <= 1)%Q
  /\ (0 <= chan_b c <= 1)%Q /\ (0 <= chan_a c <= 1)%Q.

Definition channels : list (rgba -> Q) := [ chan_r; chan_g; chan_b; chan_a ].

(** The colour a fraction [t] of the way from [c0] to [c1]. *)
Definition mix (c0 c1 : rgba) (t : Q) : rgba :=
  (chan_r c0 + t * (chan_r c1 - chan_r c0),
   chan_g c0 + t * (chan_g c1 - chan_g c0),
   chan_b c0 + t * (chan_b c1 - chan_b c0),
   chan_a c0 + t * (chan_a c1 - chan_a c0))%Q.

(** Every entry of [CMAP_CACHE] is the colormap of its key. *)
Definition cache_ok (named_color : string -> option rgba)
    (CMAP_CACHE : gmap (list string) cmap) : Prop :=
  forall colors c, CMAP_CACHE !! colors = Some c ->
    from_list named_color colors = Ok c.

(** A two-stop vertical gradient from black to white. *)
Definition sample_params : gmap string json :=
  {[ "type" := JStr "gradient";
     "colors" := JList [ JStr "#000000"; JStr "#FFFFFF" ];
     "direction" := JStr "vertical" ]}%string.

Definition sample_stops : cmap :=
  [ (channel 0 0, channel 0 0, channel 0 0, 1%Q);
    (channel 15 15, channel 15 15, channel 15 15, 1%Q) ].

Fixpoint has_char (c : ascii) (s : string) : bool :=
  match s with
  | EmptyString => false
  | String c' s' => Ascii.eqb c c' || has_char c s'
  end.

(** A name that can be told apart inside a [_]-joined string: not empty and
    without the separator. *)
Definition plain_name (s : string) : bool :=
  negb (String.eqb s "") && negb (has_char "_" s).

(** The digest as one 128-bit number. *)
Definition digest_num (st : md5_state) : Z :=
  let '(A, B, C, D) := st in
  (A + 4294967296 * (B + 4294967296 * (C + 4294967296 * D)))%Z.

Definition word32 (x : Z) : Prop := (0 <= x < 4294967296)%Z.

Definition words32 (st : md5_state) : Prop :=
  let '(A, B, C, D) := st in word32 A /\ word32 B /\ word32 C /\ word32 D.

(** ** The rest of the pipeline *)

(** [sum(enabled_features.values())] in [create_poster]. *)
Definition enabled_count (enabled_features : list (string * bool)) : nat :=
  length (filter (fun kv => snd kv = true) enabled_features).

(** [s.endswith(suffix)] and [s[:-n]]. *)
Definition endswith (s suffix : string) : bool :=
  bool_decide
    (drop (String.length s - String.length suffix) (list_ascii_of_string s)
     = list_ascii_of_string suffix).

Definition drop_last (n : nat) (s : string) : string :=
  string_of_list_ascii (take (String.length s - n) (list_ascii_of_string s)).

(** [get_available_themes] on the listing of the themes directory ([None]
    when the directory does not exist: it is created, empty). *)
Definition get_available_themes (listing : option (list string)) : list string :=
  match listing with
  | None => []
  | Some files =>
      map (drop_last 5)
          (List.filter (fun file => endswith file ".json") (sorted files))
  end.

(** What a file of the themes directory holds. *)
Inductive file_content : Type :=
  | CUnreadable
  | CBadJson
  | CJson (j : json).

(** What [load_theme] finds for a theme name in a themes directory. *)
Definition theme_file_of (themes : gmap string file_content)
    (theme_name : string) : theme_file :=
  match themes !! (theme_name +:+ ".json") with
  | None => NoFile
  | Some CUnreadable => Unreadable
  | Some CBadJson => BadJson
  | Some (CJson j) => Json j
  end.

(** The theme handling of the main block: the name has to be among the
    available themes (otherwise the program exits, [None]), then the theme is
    loaded. *)
Definition main_load_theme (themes : gmap string file_content)
    (theme_name : string) : option (result (gmap string json)) :=
  let available_themes := get_available_themes (Some (elements (dom themes))) in
  if bool_decide (theme_name ∈ available_themes)
  then Some (load_theme (theme_file_of themes theme_name))
  else None.

(** The bounds that [create_poster] computes from the nodes and passes on:
    none for a graph without nodes; a node without coordinates raises. *)
Definition poster_bounds (G : graph) : result (option bounds_t) :=
  node_points ←
    of_option KeyError
      (mapM (fun d => x ← node_x d; y ← node_y d; Some (x, y))
            (map snd (map_to_list (nodes G))));
  let xs := map fst node_points in
  let ys := map snd node_points in
  match list_min xs, list_max xs, list_min ys, list_max ys with
  | Some minx, Some maxx, Some miny, Some maxy =>
      Ok (Some (minx, miny, maxx, maxy))
  | _, _, _, _ => Ok None
  end.

(** The collection of a dataset that a feature name stands for. *)
Definition dataset_feature (data : dataset) (name : string) : option gdf :=
  if String.eqb name "water" then d_water data
  else if String.eqb name "parks" then d_parks data
  else if String.eqb name "stadiums" then d_stadiums data
  else if String.eqb name "railway" then d_railways data
  else if String.eqb name "forest" then d_forests data
  else if String.eqb name "beach" then d_beaches data
  else if String.eqb name "coastline" then d_coastlines data
  else if String.eqb name "education" then d_education data
  else if String.eqb name "worship" then d_worship data
  else if String.eqb name "airport" then d_airports data
  else None.

Definition is_hex_char (c : ascii) : bool :=
  bool_decide (c ∈ list_ascii_of_string "0123456789abcdef").

(** No road key of the theme holds a gradient. *)
Definition no_road_gradient (theme : gmap string json) : bool :=
  forallb
    (fun key =>
       negb (fst (parse_color_config (dict_get theme key (JStr "#3A3A3A")))))
    road_keys.

(** The widths that [get_edge_widths_by_type] can give. *)
Definition stroke_widths : list Q := [ 1.2; 1.0; 0.8; 0.6; 0.4 ]%Q.

(** The rings that [geoms_to_path] walks through, in its order: for each
    polygon of each row, the exterior and then the interiors. *)
Definition all_rings (geoms : gdf) : list (list coord) :=
  concat (map (fun p => exterior p :: interiors p)
              (concat (map row_polygons geoms))).

(** The test of [filter_geom] on a row. *)
Definition row_has_type (geom_types : list string) (row : option geometry) : bool :=
  match row with
  | Some geom => str_in (geom_type geom) geom_types
  | None => false
  end.



(** * Properties *)

Lemma has_key_dom {V : Type} (k : string) (d : gmap string V) :
  has_key k d = true <-> k ∈ dom d.
Proof.
  unfold has_key. rewrite bool_decide_eq_true. symmetry. apply elem_of_dom.
Qed.


Lemma Ok_inj {A : Type} (a b : A) : Ok a = Ok b -> a = b.
Proof. intros H. injection H as ->. reflexivity. Qed.

(** ** ThemeModel *)

Lemma default_theme_has_required : has_required default_theme = true.
Proof. vm_compute. reflexivity. Qed.

(** C1, as the spec states it, fails: a theme document that is an empty
    mapping is accepted without error and has none of the required keys. *)
Lemma load_theme_accepts_missing_keys :
  load_theme (Json (JDict ∅)) = Ok ∅ /\ has_required (∅ : gmap string json) = false.
Proof. split; reflexivity. Qed.

(** C1 (amended): [load_theme] returns the embedded default, which has the
    four required keys, when the file is missing, returns a mapping document
    unchanged whatever its keys, and raises on a file that is unreadable, not
    JSON or not a mapping. *)
Theorem load_theme_result (f : theme_file) :
  match load_theme f with
  | Ok theme =>
      (f = NoFile /\ theme = default_theme /\ has_required theme = true)
      \/ f = Json (JDict theme)
  | Raise _ =>
      f = Unreadable \/ f = BadJson \/ exists j, f = Json j /\ is_mapping j = false
  end.
Proof.
  destruct f as [| | |j]; simpl.
  - left. auto using default_theme_has_required.
  - auto.
  - auto.
  - destruct j; simpl; try (right; right; eexists; split; [reflexivity|reflexivity]).
    right. reflexivity.
Qed.

(** C9: a list of any length is a vertical gradient over that list, a
    mapping is a gradient exactly when its [type] is the string "gradient"
    and is then returned as it is, and every value that is not a list comes
    back unchanged. *)
Theorem parse_color_config_spec (config : json) :
  (forall l, config = JList l ->
     exists d, parse_color_config config = (true, JDict d)
       /\ d !! "type"%string = Some (JStr "gradient")
       /\ d !! "colors"%string = Some (JList l)
       /\ d !! "direction"%string = Some (JStr "vertical")
       /\ dom d = {[ "type"; "colors"; "direction" ]}%string)
  /\ (forall d, config = JDict d ->
        (fst (parse_color_config config) = true
         <-> d !! "type"%string = Some (JStr "gradient"))
        /\ snd (parse_color_config config) = config)
  /\ ((forall l, config <> JList l) -> (forall d, config <> JDict d) ->
        parse_color_config config = (false, config)).
Proof.
  split; [|split].
  - intros l ->. eexists. split; [reflexivity|].
    repeat split; reflexivity.
  - intros d ->. simpl. unfold json_is_str.
    destruct (d !! "type"%string) as [[| | |s| |]|] eqn:E; simpl;
      try (split; [split; intros; discriminate|reflexivity]).
    case_bool_decide as Hs; simpl.
    + subst s. split; [split; reflexivity|reflexivity].
    + split; [split; [discriminate|congruence]|reflexivity].
  - intros Hl Hd. destruct config; try reflexivity.
    + exfalso. eapply Hl. reflexivity.
    + exfalso. eapply Hd. reflexivity.
Qed.

Lemma parse_color_config_spec_witness :
  parse_color_config (JList []) =
    (true, JDict (list_to_map [ ("type", JStr "gradient"); ("colors", JList []);
                                ("direction", JStr "vertical") ]%string))
  /\ parse_color_config (JList [JStr "#112233"]) =
    (true, JDict (list_to_map [ ("type", JStr "gradient");
                                ("colors", JList [JStr "#112233"]);
                                ("direction", JStr "vertical") ]%string))
  /\ parse_color_config (JStr "#112233") = (false, JStr "#112233").
Proof.
  split; [reflexivity|]. split; [reflexivity|].
  apply (parse_color_config_spec (JStr "#112233")); intros; discriminate.
Defined.

(** ** FeatureGate *)

Lemma feature_keys_same : Forall (fun kv => fst kv = snd kv) feature_keys.
Proof. repeat constructor. Qed.

Lemma get_enabled_features_names (theme : gmap string json) :
  map fst (get_enabled_features theme) = feature_names.
Proof. reflexivity. Qed.

Lemma get_enabled_features_item (theme : gmap string json) name b :
  (name, b) ∈ get_enabled_features theme ->
  name ∈ feature_names /\ b = has_key name theme.
Proof.
  unfold get_enabled_features. rewrite list_elem_of_fmap.
  intros [[n k] [Heq Hin]]. injection Heq as -> ->.
  pose proof feature_keys_same as Hs. rewrite Forall_forall in Hs.
  specialize (Hs _ Hin). simpl in Hs. subst k. split; [|reflexivity].
  unfold feature_names. rewrite list_elem_of_fmap. exists (n, n). done.
Qed.

Lemma get_enabled_features_dom (theme theme' : gmap string json) :
  (forall name, name ∈ feature_names -> (name ∈ dom theme <-> name ∈ dom theme')) ->
  get_enabled_features theme = get_enabled_features theme'.
Proof.
  intros Hdom. unfold get_enabled_features.
  apply list_eq_Forall2, Forall2_fmap, Forall_Forall2_diag.
  pose proof feature_keys_same as Hs. rewrite Forall_forall in *.
  intros [n k] Hin. specialize (Hs _ Hin). simpl in Hs. subst k.
  f_equal. apply eq_true_iff_eq. rewrite !has_key_dom. apply Hdom.
  unfold feature_names. rewrite list_elem_of_fmap. exists (n, n). done.
Qed.

(** C3: the result lists exactly the ten feature names, each with the truth
    of "this name is a key of the theme"; two themes with the same keys give
    the same result whatever their values. *)
Theorem get_enabled_features_spec (theme : gmap string json) :
  map fst (get_enabled_features theme)
  = [ "water"; "parks"; "stadiums"; "railway"; "forest"; "beach"; "coastline";
      "education"; "worship"; "airport" ]%string
  /\ (forall name b, (name, b) ∈ get_enabled_features theme ->
        (b = true <-> name ∈ dom theme))
  /\ (forall theme' : gmap string json, dom theme = dom theme' ->
        get_enabled_features theme = get_enabled_features theme').
Proof.
  split; [reflexivity|]. split.
  - intros name b Hin. apply get_enabled_features_item in Hin as [_ ->].
    apply has_key_dom.
  - intros theme' Hdom. apply get_enabled_features_dom.
    intros name _. rewrite Hdom. reflexivity.
Qed.

Lemma get_enabled_features_spec_witness :
  get_enabled_features {[ "water" := JStr "#0000FF"; "road_default" := JStr "#333333" ]}%string
  = get_enabled_features {[ "water" := JList [JStr "#000000"; JStr "#FFFFFF"];
                            "road_default" := JNull ]}%string.
Proof.
  apply (get_enabled_features_spec
           {[ "water" := JStr "#0000FF"; "road_default" := JStr "#333333" ]}%string).
  reflexivity.
Defined.

(** ** RoadClassifier *)

Lemma str_in_true x l : x ∈ l -> str_in x l = true.
Proof. intros H. unfold str_in. apply bool_decide_eq_true_2, H. Qed.

Lemma str_in_false x l : x ∉ l -> str_in x l = false.
Proof. intros H. unfold str_in. apply bool_decide_eq_false_2, H. Qed.

Lemma highway_of_first (tag : option tag_value) :
  match tag with
  | None => "unclassified"
  | Some (TagStr s) => s
  | Some (TagList []) => "unclassified"
  | Some (TagList (s :: _)) => s
  end%string = highway_of tag.
Proof. destruct tag as [[s|[|s l]]|]; reflexivity. Qed.

(** One row of the table: the spec's test and the code's test agree. *)
Ltac road_row :=
  match goal with
  | |- context [decide ?P] =>
      let Hrow := fresh "Hrow" in
      destruct (decide P) as [Hrow|Hrow];
      [ rewrite str_in_true by (rewrite ?elem_of_cons; tauto); reflexivity
      | rewrite str_in_false
          by (rewrite ?elem_of_cons, elem_of_nil; tauto) ]
  end.

Lemma road_key_spec (tag : option tag_value) :
  road_key (highway_of tag) = class_key (spec_classify tag).
Proof.
  unfold road_key, spec_classify. rewrite highway_of_first.
  generalize (highway_of tag). intros h.
  do 5 road_row. reflexivity.
Qed.

Lemma road_width_spec (tag : option tag_value) :
  road_width (highway_of tag) = widthFor (spec_classify tag).
Proof.
  unfold road_width, spec_classify. rewrite highway_of_first.
  generalize (highway_of tag). intros h.
  do 4 road_row. case_decide; reflexivity.
Qed.

Lemma class_key_inj c1 c2 : class_key c1 = class_key c2 -> c1 = c2.
Proof. destruct c1, c2; simpl; intros H; try reflexivity; discriminate H. Qed.

(** C4: on every tag (a string, a list, or none) the key chosen for the
    colour and the width chosen for the stroke are those of the class that
    the spec's table gives to the tag's first element, "unclassified" standing
    for a missing tag or an empty list; a key names one class only. *)
Theorem road_classification_table (tag : option tag_value) :
  road_key (highway_of tag) = class_key (spec_classify tag)
  /\ road_width (highway_of tag) = widthFor (spec_classify tag)
  /\ (forall c, road_key (highway_of tag) = class_key c -> c = spec_classify tag)
  /\ highway_of None = "unclassified"%string
  /\ highway_of (Some (TagList [])) = "unclassified"%string
  /\ (forall s l, highway_of (Some (TagList (s :: l))) = highway_of (Some (TagStr s)))
  /\ spec_classify None = residential.
Proof.
  split; [apply road_key_spec|]. split; [apply road_width_spec|].
  split.
  { intros c Hc. rewrite road_key_spec in Hc. symmetry.
    apply class_key_inj, Hc. }
  repeat split; reflexivity.
Qed.

Lemma road_classification_table_witness :
  road_key (highway_of (Some (TagList [ "trunk_link"; "residential" ]%string)))
  = "road_primary"%string
  /\ primary = spec_classify (Some (TagList [ "trunk_link"; "residential" ]%string)).
Proof.
  split; [reflexivity|].
  apply (road_classification_table
           (Some (TagList [ "trunk_link"; "residential" ]%string))).
  reflexivity.
Defined.

(** ** CacheStore: load and fall back *)

Lemma load_from_cache_Some cache_dir cache_key data :
  load_from_cache cache_dir cache_key = Some data
  <-> cache_dir !! cache_path cache_key = Some (Pickled data).
Proof.
  unfold load_from_cache.
  destruct (cache_dir !! cache_path cache_key) as [[d|]|]; simpl.
  - split; intros H; injection H as ->; reflexivity.
  - split; discriminate.
  - split; discriminate.
Qed.

Lemma load_from_cache_miss cache_dir cache_key :
  cache_dir !! cache_path cache_key = None
  \/ cache_dir !! cache_path cache_key = Some Corrupt ->
  load_from_cache cache_dir cache_key = None.
Proof. unfold load_from_cache. intros [-> | ->]; reflexivity. Qed.

Lemma acquire_miss F cache_dir w theme point dist network_type :
  let key := get_cache_key point dist network_type (get_enabled_features theme) in
  load_from_cache cache_dir key = None ->
  acquire F cache_dir w theme point dist true network_type
  = (data ← download F point dist network_type (get_enabled_features theme);
     Ok {| acq_data := data;
           acq_requests := fetch_requests (get_enabled_features theme);
           acq_cache_dir := save_to_cache cache_dir key data w |}).
Proof. intros key Hmiss. unfold acquire. fold key. rewrite Hmiss. reflexivity. Qed.

(** C6: [load_from_cache] returns a dataset exactly when the entry exists and
    unpickles; it returns [None], and raises nothing, when there is no entry
    and when the entry is corrupt; [create_poster] then downloads: on a
    corrupt entry it uses the same data and sends the same requests as when
    the entry is absent, and leaves the same cache once the new entry is
    written. *)
Theorem load_from_cache_fallback (F : fetcher) (cache_dir : gmap string cache_file)
    (w : write_outcome) (theme : gmap string json) (point : Q * Q) (dist : Z)
    (network_type : string) :
  let key := get_cache_key point dist network_type (get_enabled_features theme) in
  let miss_dir := delete (cache_path key) cache_dir in
  (forall k data,
     load_from_cache cache_dir k = Some data
     <-> cache_dir !! cache_path k = Some (Pickled data))
  /\ (forall k, cache_dir !! cache_path k = None -> load_from_cache cache_dir k = None)
  /\ (forall k, cache_dir !! cache_path k = Some Corrupt ->
        load_from_cache cache_dir k = None)
  /\ (cache_dir !! cache_path key = Some Corrupt ->
        acq_view (acquire F cache_dir w theme point dist true network_type)
        = acq_view (acquire F miss_dir w theme point dist true network_type)
        /\ acq_view (acquire F cache_dir w theme point dist true network_type)
           = (data ← download F point dist network_type (get_enabled_features theme);
              Ok (data, fetch_requests (get_enabled_features theme)))
        /\ acquire F cache_dir Written theme point dist true network_type
           = acquire F miss_dir Written theme point dist true network_type).
Proof.
  intros key miss_dir.
  split; [intros; apply load_from_cache_Some|].
  split; [intros; apply load_from_cache_miss; auto|].
  split; [intros; apply load_from_cache_miss; auto|].
  intros Hcorrupt.
  assert (H1 : load_from_cache cache_dir key = None)
    by (apply load_from_cache_miss; auto).
  assert (H0 : load_from_cache miss_dir key = None).
  { apply load_from_cache_miss. left. apply lookup_delete_eq. }
  rewrite !(acquire_miss F cache_dir) by exact H1.
  rewrite !(acquire_miss F miss_dir) by exact H0.
  fold key.
  destruct (download F point dist network_type (get_enabled_features theme))
    as [data|e]; simpl; [|auto].
  repeat split. unfold miss_dir. rewrite insert_delete_eq. reflexivity.
Qed.

Lemma load_from_cache_fallback_witness :
  let dir : gmap string cache_file :=
    {[ "1ce513ca00036d08913518fdbc91602b.pkl"%string := Corrupt ]} in
  dir !! cache_path (get_cache_key (0, 0)%Q 1000 "drive"
                       (get_enabled_features default_theme))
  = Some Corrupt
  /\ acq_view (acquire sample_fetcher dir DumpFails default_theme (0, 0)%Q 1000
                 true "drive")
     = Ok ({| d_G := sample_graph; d_water := None; d_parks := None;
              d_stadiums := None; d_railways := None; d_forests := None;
              d_beaches := None; d_coastlines := None; d_education := None;
              d_worship := None; d_airports := None |},
           [ "streets"; "water"; "parks" ]%string).
Proof.
  intros dir. split; [vm_compute; reflexivity|].
  destruct (load_from_cache_fallback sample_fetcher dir DumpFails default_theme
              (0, 0)%Q 1000 "drive") as (_ & _ & _ & H).
  destruct H as (_ & -> & _); [vm_compute; reflexivity|].
  vm_compute. reflexivity.
Defined.

(** ** Area layers *)

Lemma area_type_test (geom : geometry) :
  str_in (geom_type geom) area_features = is_area_row (Some geom).
Proof. destruct geom; reflexivity. Qed.

Lemma filter_geom_area (g : option gdf) :
  filter_geom g area_features = List.filter is_area_row <$> g.
Proof.
  destruct g as [rows|]; [|reflexivity]. simpl.
  destruct rows as [|row rows]; [reflexivity|].
  f_equal. apply List.filter_ext. intros [geom|]; [apply area_type_test|reflexivity].
Qed.

Lemma is_area_row_type (row : option geometry) :
  is_area_row row = true
  <-> exists geom, row = Some geom
        /\ (geom_type geom = "Polygon"%string \/ geom_type geom = "MultiPolygon"%string).
Proof.
  split.
  - destruct row as [geom|]; [|discriminate].
    destruct geom; try discriminate; intros _; eexists; split; eauto.
  - intros (geom & -> & H). destruct geom; simpl in *; try reflexivity;
      destruct H as [H|H]; discriminate H.
Qed.

Lemma filter_no_area (rows : gdf) :
  Forall (fun row => is_area_row row = false) rows ->
  List.filter is_area_row rows = [].
Proof.
  induction 1 as [|row rows Hrow _ IH]; [reflexivity|].
  simpl. rewrite Hrow. exact IH.
Qed.

Lemma filter_geom_no_area (g : option gdf) :
  no_area g ->
  filter_geom g area_features = None \/ filter_geom g area_features = Some [].
Proof.
  rewrite filter_geom_area. destruct g as [rows|]; simpl; [|auto].
  intros H. right. f_equal. apply filter_no_area, H.
Qed.

Section AreaLayers.

Variable named_color : string -> option rgba.
Variable theme : gmap string json.
Variables xlim ylim : Q * Q.

Lemma plot_feature_nothing (g : option gdf) key fallback zorder alpha :
  g = None \/ g = Some [] ->
  plot_feature named_color theme xlim ylim g key fallback zorder alpha = Ok [].
Proof. intros [-> | ->]; reflexivity. Qed.

Lemma plot_feature_filtered_nothing (g : option gdf) key fallback zorder alpha :
  no_area g ->
  plot_feature named_color theme xlim ylim (filter_geom g area_features)
    key fallback zorder alpha = Ok [].
Proof. intros H. apply plot_feature_nothing, filter_geom_no_area, H. Qed.

(** C7: filtering with the area types keeps, in order, exactly the rows
    whose geometry is a Polygon or a MultiPolygon; a layer whose collection is
    absent, empty or holds no such row draws nothing and raises nothing,
    whatever the theme says for its key (the colour is not looked at); when
    this is so for the six area collections, the six layers together draw
    nothing. *)
Theorem area_layer_filtering (g : option gdf) (key fallback : string)
    (zorder alpha : Q) :
  filter_geom g area_features = List.filter is_area_row <$> g
  /\ (forall row, is_area_row row = true
        <-> exists geom, row = Some geom
              /\ (geom_type geom = "Polygon"%string
                  \/ geom_type geom = "MultiPolygon"%string))
  /\ (no_area g ->
        plot_feature named_color theme xlim ylim (filter_geom g area_features)
          key fallback zorder alpha = Ok [])
  /\ (forall data,
        no_area (d_water data) -> no_area (d_parks data) ->
        no_area (d_forests data) -> no_area (d_beaches data) ->
        no_area (d_education data) -> no_area (d_airports data) ->
        area_layers named_color theme xlim ylim data = Ok []).
Proof.
  split; [apply filter_geom_area|].
  split; [apply is_area_row_type|].
  split; [apply plot_feature_filtered_nothing|].
  intros data Hw Hp Hf Hb He Ha. unfold area_layers.
  rewrite !plot_feature_filtered_nothing by assumption. reflexivity.
Qed.

End AreaLayers.

Lemma area_layer_filtering_witness :
  no_area (Some [ Some (Point (1, 2)%Q); None; Some (LineString [ (0, 0)%Q; (1, 1)%Q ]) ])
  /\ plot_feature no_names {[ "water" := JStr "not a colour" ]}%string
       (0, 1)%Q (0, 1)%Q
       (filter_geom
          (Some [ Some (Point (1, 2)%Q); None;
                  Some (LineString [ (0, 0)%Q; (1, 1)%Q ]) ])
          area_features)
       "water" "#C0C0C0" 1.5 1 = Ok [].
Proof.
  assert (H : no_area (Some [ Some (Point (1, 2)%Q); None;
                              Some (LineString [ (0, 0)%Q; (1, 1)%Q ]) ])).
  { simpl. repeat constructor. }
  split; [exact H|].
  apply (area_layer_filtering no_names {[ "water" := JStr "not a colour" ]}%string
           (0, 1)%Q (0, 1)%Q _ "water" "#C0C0C0" 1.5 1).
  exact H.
Defined.

(** With a polygon in the collection the colour is resolved, and a value
    that is no colour raises. *)
Example plot_feature_resolves_after_filter :
  plot_feature no_names {[ "water" := JStr "not a colour" ]}%string
    (0, 1)%Q (0, 1)%Q
    (filter_geom
       (Some [ Some (Point (1, 2)%Q);
               Some (Polygon {| exterior := [ (0, 0); (1, 0); (1, 1); (0, 0) ]%Q;
                                interiors := [] |}) ])
       area_features)
    "water" "#C0C0C0" 1.5 1 = Raise ValueError.
Proof. vm_compute. reflexivity. Qed.

(** ** Vignette *)

Lemma linspace_lookup (a b : Q) (n i : nat) :
  (i < n)%nat ->
  linspace a b n !! i
  = Some (a + inject_Z (Z.of_nat i) * (b - a) / inject_Z (Z.of_nat (n - 1)))%Q.
Proof.
  intros Hi. unfold linspace. rewrite list_lookup_fmap.
  rewrite lookup_seq_lt by exact Hi. reflexivity.
Qed.

(** Row [i] of the 256-row image shows entry [i] of the 256 listed colours. *)
Lemma fade_row_index :
  map lut_index (linspace 0 1 256) = seq 0 256.
Proof. vm_compute. reflexivity. Qed.

Lemma fade_rows_listed (colors : list rgba) :
  length colors = 256%nat ->
  map (fun v => default (0, 0, 0, 0)%Q (colors !! lut_index v)) (linspace 0 1 256)
  = colors.
Proof.
  intros Hlen.
  rewrite <- (List.map_map lut_index
                (fun i => default (0, 0, 0, 0)%Q (colors !! i))).
  rewrite fade_row_index.
  apply list_eq. intros i. rewrite list_lookup_fmap.
  destruct (decide (i < 256)%nat) as [Hi|Hi].
  - rewrite lookup_seq_lt by exact Hi.
    destruct (lookup_lt_is_Some_2 colors i) as [c Hc]; [lia|].
    simpl. rewrite Hc. reflexivity.
  - rewrite lookup_seq_ge by lia. simpl. symmetry.
    apply lookup_ge_None. lia.
Qed.

Section Vignette.

Variable named_color : string -> option rgba.

Lemma create_gradient_fade_inv xlim ylim color location zorder f :
  create_gradient_fade named_color xlim ylim color location zorder = Ok f ->
  exists r g b a,
    to_rgba_value named_color (ColJson color) = Ok (r, g, b, a)
    /\ fade_rows f
       = map (fun al => (r, g, b, al))
             (if bool_decide (location = "bottom"%string)
              then linspace 1 0 256 else linspace 0 1 256)
    /\ fade_extent f
       = (xlim.1, xlim.2,
          ylim.1 + (ylim.2 - ylim.1)
                   * (if bool_decide (location = "bottom"%string) then 0 else 0.75),
          ylim.1 + (ylim.2 - ylim.1)
                   * (if bool_decide (location = "bottom"%string) then 0.25 else 1.0))%Q.
Proof.
  unfold create_gradient_fade.
  destruct (to_rgba_value named_color (ColJson color)) as [[[[r g] b] a]|e];
    [|discriminate].
  cbn [mbind result_bind].
  intros Hf. exists r, g, b, a. split; [reflexivity|].
  destruct (bool_decide (location = "bottom"%string));
    apply Ok_inj in Hf; rewrite <- Hf; cbn [fade_rows fade_extent];
    (split; [|reflexivity]).
  - exact (fade_rows_listed (map (fun al => (r, g, b, al)) (linspace 1 0 256))
             (length_map _ _)).
  - exact (fade_rows_listed (map (fun al => (r, g, b, al)) (linspace 0 1 256))
             (length_map _ _)).
Qed.

(** C8: the bottom fade covers the band from 0 to 0.25 of the vertical
    extent and the top fade the band from 0.75 to 1; both have 256 rows of
    one and the same colour; row [i] from the bottom has opacity
    [1 - i/255] in the bottom band and [i/255] in the top band, so each band
    is opaque at the canvas edge and transparent at its inner end, and the
    top band is the bottom band upside down. *)
Theorem vignette_bands (theme : gmap string json) (xlim ylim : Q * Q)
    (bottom top : fade) :
  vignette named_color theme xlim ylim = Ok (bottom, top) ->
  let y0 := ylim.1 in
  let y_range := (ylim.2 - ylim.1)%Q in
  (exists yb yt, fade_extent bottom = (xlim.1, xlim.2, yb, yt)
     /\ yb == y0 /\ yt == y0 + (1 # 4) * y_range)
  /\ (exists yb yt, fade_extent top = (xlim.1, xlim.2, yb, yt)
        /\ yb == y0 + (3 # 4) * y_range /\ yt == y0 + y_range)
  /\ length (fade_rows bottom) = 256%nat
  /\ length (fade_rows top) = 256%nat
  /\ exists r g b,
       forall i, (i < 256)%nat ->
         exists ab at_ am,
           fade_rows bottom !! i = Some (r, g, b, ab)
           /\ fade_rows top !! i = Some (r, g, b, at_)
           /\ fade_rows bottom !! (255 - i)%nat = Some (r, g, b, am)
           /\ ab == 1 - inject_Z (Z.of_nat i) / 255
           /\ at_ == inject_Z (Z.of_nat i) / 255
           /\ am == at_.
Proof.
  unfold vignette.
  destruct (theme !! "gradient_color"%string) as [c|]; [|discriminate].
  cbn [of_option mbind result_bind].
  destruct (create_gradient_fade named_color xlim ylim c "bottom" 10) as [fb|e] eqn:Hb;
    [|discriminate].
  destruct (create_gradient_fade named_color xlim ylim c "top" 10) as [ft|e] eqn:Ht;
    [|discriminate].
  cbn [mbind result_bind]. intros H. apply Ok_inj in H.
  injection H as <- <-.
  apply create_gradient_fade_inv in Hb as (r & g & b & a & Hc & Hrows & Hext).
  apply create_gradient_fade_inv in Ht as (r' & g' & b' & a' & Hc' & Hrows' & Hext').
  rewrite Hc in Hc'. injection Hc' as <- <- <- <-.
  change (bool_decide ("bottom" = "bottom")%string) with true in *.
  change (bool_decide ("top" = "bottom")%string) with false in *.
  split; [|split; [|split; [|split]]].
  - eexists _, _. split; [exact Hext|]. split; ring.
  - eexists _, _. split; [exact Hext'|]. split; ring.
  - rewrite Hrows, length_map. reflexivity.
  - rewrite Hrows', length_map. reflexivity.
  - exists r, g, b. intros i Hi. rewrite Hrows, Hrows'.
    rewrite !list_lookup_fmap, !linspace_lookup by lia.
    eexists _, _, _. split; [reflexivity|]. split; [reflexivity|].
    split; [reflexivity|].
    change (inject_Z (Z.of_nat (256 - 1))) with 255%Q.
    replace (Z.of_nat (255 - i)) with (255 - Z.of_nat i)%Z by lia.
    unfold Z.sub. rewrite inject_Z_plus, inject_Z_opp.
    change (inject_Z 255) with 255%Q.
    split; [field|]. split; field.
Qed.

End Vignette.

Lemma vignette_bands_witness :
  exists bottom top,
    vignette no_names default_theme (0, 12)%Q (0, 16)%Q = Ok (bottom, top)
    /\ length (fade_rows bottom) = 256%nat
    /\ length (fade_rows top) = 256%nat.
Proof.
  destruct (vignette no_names default_theme (0, 12)%Q (0, 16)%Q)
    as [[bottom top]|e] eqn:H.
  - exists bottom, top. split; [reflexivity|].
    destruct (vignette_bands no_names default_theme (0, 12)%Q (0, 16)%Q
                bottom top H) as (_ & _ & Hb & Ht & _).
    split; assumption.
  - vm_compute in H. discriminate H.
Defined.

(** ** Edge colours: bounds and totality *)

Lemma or_one_nonzero (a : Q) : Qeq_bool (or_one a) 0 = false.
Proof.
  unfold or_one. destruct (Qeq_bool a 0) eqn:E; [reflexivity|exact E].
Qed.

Lemma or_one_zero (a : Q) : a == 0 -> or_one a = 1%Q.
Proof.
  intros H. unfold or_one. apply Qeq_bool_iff in H. rewrite H. reflexivity.
Qed.

Lemma or_one_other (a : Q) : ~ a == 0 -> or_one a = a.
Proof.
  intros H. unfold or_one. destruct (Qeq_bool a 0) eqn:E; [|reflexivity].
  apply Qeq_bool_iff in E. contradiction.
Qed.

Lemma py_div_or_one (x a : Q) : py_div x (or_one a) = Ok (x / or_one a)%Q.
Proof. unfold py_div. rewrite or_one_nonzero. reflexivity. Qed.

Lemma road_key_in (h : string) : road_key h ∈ road_keys.
Proof.
  unfold road_key, road_keys.
  repeat (match goal with |- context [str_in ?x ?l] => destruct (str_in x l) end);
    rewrite !elem_of_cons; tauto.
Qed.

Section EdgeColors.

Variable named_color : string -> option rgba.

Lemma to_rgba_black :
  to_rgba named_color "#000000" = Some (channel 0 0, channel 0 0, channel 0 0, 1%Q).
Proof. reflexivity. Qed.

Lemma node_bounds_empty (G : graph) :
  nodes G = ∅ -> node_bounds G = Ok (0, 0, 1, 1)%Q.
Proof.
  intros H. unfold node_bounds. rewrite H, map_to_list_empty. reflexivity.
Qed.

Lemma edge_position_raises G b p u v e :
  edge_position G b p u v = Raise e -> e = KeyError.
Proof.
  unfold edge_position. destruct b as [[[minx miny] maxx] maxy].
  destruct (nodes G !! u) as [un|]; cbn [of_option mbind result_bind]; [|congruence].
  destruct (nodes G !! v) as [vn|]; cbn [of_option mbind result_bind]; [|congruence].
  destruct (node_x un); cbn [of_option mbind result_bind]; [|congruence].
  destruct (node_x vn); cbn [of_option mbind result_bind]; [|congruence].
  destruct (node_y un); cbn [of_option mbind result_bind]; [|congruence].
  destruct (node_y vn); cbn [of_option mbind result_bind]; [|congruence].
  unfold bounds_height, bounds_width.
  match goal with |- context [if ?c then _ else _] => destruct c end;
    rewrite py_div_or_one; cbn [mbind result_bind]; discriminate.
Qed.

Lemma edge_color_ok theme G b cache e :
  road_colors_ok named_color theme = true ->
  exists c cache', edge_color named_color theme G b cache e = (Ok c, cache').
Proof.
  intros Hok. unfold edge_color.
  unfold road_colors_ok in Hok. rewrite forallb_forall in Hok.
  specialize (Hok (road_key (highway_of (edge_highway e)))).
  rewrite <- list_elem_of_In in Hok. specialize (Hok (road_key_in _)).
  destruct (parse_color_config _) as [is_gradient params].
  destruct is_gradient; cbn [negb orb] in *.
  - destruct (sample_gradient _ _ _ _ _ _ _) as [[c|err] cache'];
      eexists _, _; reflexivity.
  - destruct (to_rgba_value named_color (ColJson params));
      [eauto|discriminate Hok].
Qed.

Lemma edge_colors_loop_ok theme G b es :
  road_colors_ok named_color theme = true ->
  forall cache, exists colors cache',
    edge_colors_loop named_color theme G b cache es = (Ok colors, cache')
    /\ length colors = length es.
Proof.
  intros Hok. induction es as [|e es IH]; intros cache; simpl.
  - eauto.
  - destruct (edge_color_ok theme G b cache e Hok) as (c & cache1 & ->).
    destruct (IH cache1) as (cs & cache2 & -> & Hlen).
    simpl. eexists _, _. split; [reflexivity|]. simpl. congruence.
Qed.

(** C10: whatever the graph and the bounds, the two divisors are not zero:
    a zero extent is replaced by 1; with no bounds given and no nodes the
    bounds are (0, 0, 1, 1); computing a position can fail on a missing
    coordinate only, never on the division; and when the theme's solid road
    values are colours the function returns one colour per edge. *)
Theorem get_edge_colors_total (theme : gmap string json)
    (CMAP_CACHE : gmap (list string) cmap) (G : graph)
    (bounds : option bounds_t) :
  let b := effective_bounds G bounds in
  (forall minx miny maxx maxy, b = (minx, miny, maxx, maxy) ->
     ~ bounds_width b == 0 /\ ~ bounds_height b == 0
     /\ (maxx == minx -> bounds_width b = 1%Q)
     /\ (maxy == miny -> bounds_height b = 1%Q)
     /\ (~ maxx == minx -> bounds_width b = (maxx - minx)%Q)
     /\ (~ maxy == miny -> bounds_height b = (maxy - miny)%Q))
  /\ (bounds = None -> nodes G = ∅ -> b = (0, 0, 1, 1)%Q)
  /\ (forall params u v e, edge_position G b params u v = Raise e -> e = KeyError)
  /\ (road_colors_ok named_color theme = true ->
        exists colors cache',
          get_edge_colors_by_type named_color theme CMAP_CACHE G bounds
          = (Ok colors, cache')
          /\ length colors = length (edges G)).
Proof.
  intros b. split; [|split; [|split]].
  - intros minx miny maxx maxy ->. unfold bounds_width, bounds_height.
    repeat split.
    + intros H. apply Qeq_bool_iff in H. rewrite or_one_nonzero in H. discriminate.
    + intros H. apply Qeq_bool_iff in H. rewrite or_one_nonzero in H. discriminate.
    + intros H. apply or_one_zero. rewrite H. ring.
    + intros H. apply or_one_zero. rewrite H. ring.
    + intros H. apply or_one_other. intros H0. apply H.
      rewrite <- (Qplus_0_l minx), <- H0. ring.
    + intros H. apply or_one_other. intros H0. apply H.
      rewrite <- (Qplus_0_l miny), <- H0. ring.
  - intros -> Hnodes. subst b. simpl. rewrite node_bounds_empty by exact Hnodes.
    reflexivity.
  - intros params u v e. apply edge_position_raises.
  - intros Hok. unfold get_edge_colors_by_type. fold b.
    apply edge_colors_loop_ok, Hok.
Qed.

End EdgeColors.

Lemma get_edge_colors_total_witness :
  road_colors_ok no_names default_theme = true
  /\ exists colors cache',
       get_edge_colors_by_type no_names default_theme ∅ sample_graph
         (Some (0, 0, 0, 0)%Q)
       = (Ok colors, cache')
       /\ length colors = 4%nat.
Proof.
  split; [vm_compute; reflexivity|].
  apply (get_edge_colors_total no_names default_theme ∅ sample_graph
           (Some (0, 0, 0, 0)%Q)).
  vm_compute. reflexivity.
Defined.

(** ** Gradient sampling *)

Lemma clip01_id (x : Q) : (0 <= x <= 1)%Q -> clip01 x == x.
Proof.
  intros [H0 H1]. unfold clip01.
  rewrite (Q.min_r 1 x) by exact H1. apply Q.max_r. exact H0.
Qed.

Lemma clamp_range (t : Q) : (0 <= Qmax 0 (Qmin 1 t) <= 1)%Q.
Proof.
  split; [apply Q.le_max_l|].
  apply Q.max_lub; [discriminate|apply Q.le_min_l].
Qed.

Lemma clamp_mono (t t' : Q) :
  (t <= t')%Q -> (Qmax 0 (Qmin 1 t) <= Qmax 0 (Qmin 1 t'))%Q.
Proof.
  intros H. apply Q.max_le_compat_l. apply Q.min_le_compat_l. exact H.
Qed.

Lemma clamp_at_zero (t : Q) : t == 0 -> Qmax 0 (Qmin 1 t) == 0.
Proof.
  intros H. rewrite H. reflexivity.
Qed.

Lemma clamp_at_one (t : Q) : t == 1 -> Qmax 0 (Qmin 1 t) == 1.
Proof.
  intros H. rewrite H. reflexivity.
Qed.

Lemma lut_index_comp (x y : Q) : x == y -> lut_index x = lut_index y.
Proof. intros H. unfold lut_index. rewrite H. reflexivity. Qed.

Lemma lut_index_mono (x y : Q) : (x <= y)%Q -> (lut_index x <= lut_index y)%nat.
Proof.
  intros H. unfold lut_index. apply Z2Nat.inj_le; [lia|lia|].
  assert (Qfloor (x * 256) <= Qfloor (y * 256))%Z.
  { apply Qfloor_resp_le. apply Qmult_le_compat_r; [exact H|discriminate]. }
  lia.
Qed.

Lemma lut_index_bound (x : Q) : (lut_index x <= 255)%nat.
Proof. unfold lut_index. lia. Qed.

Lemma lut_channel_first (ys : list Q) :
  lut_channel ys 0 = clip01 (default 0%Q (ys !! 0%nat)).
Proof. reflexivity. Qed.

Lemma lut_channel_last (ys : list Q) :
  lut_channel ys 255 = clip01 (default 0%Q (ys !! (length ys - 1)%nat)).
Proof. reflexivity. Qed.

Lemma inject_nat_range (i : nat) :
  (i <= 255)%nat -> (0 <= inject_Z (Z.of_nat i) <= 255)%Q.
Proof.
  intros H. split.
  - change 0%Q with (inject_Z 0). rewrite <- Zle_Qle. lia.
  - change 255%Q with (inject_Z 255). rewrite <- Zle_Qle. lia.
Qed.

Lemma convex_unit (y0 y1 t : Q) :
  (0 <= y0 <= 1)%Q -> (0 <= y1 <= 1)%Q -> (0 <= t <= 1)%Q ->
  (0 <= y0 + t * (y1 - y0) <= 1)%Q.
Proof. intros [? ?] [? ?] [? ?]. split; nra. Qed.

(** With two stops the table is the straight line between them. *)
Lemma lut_channel_two (y0 y1 : Q) (i : nat) :
  (0 <= y0 <= 1)%Q -> (0 <= y1 <= 1)%Q -> (i <= 255)%nat ->
  lut_channel [y0; y1] i == y0 + inject_Z (Z.of_nat i) / 255 * (y1 - y0).
Proof.
  intros H0 H1 Hi.
  pose proof (inject_nat_range i Hi) as [Hlo Hhi].
  assert (Ht : (0 <= inject_Z (Z.of_nat i) / 255 <= 1)%Q).
  { split.
    - apply Qle_shift_div_l; [reflexivity|]. rewrite Qmult_0_l. exact Hlo.
    - apply Qle_shift_div_r; [reflexivity|]. rewrite Qmult_1_l. exact Hhi. }
  pose proof (convex_unit y0 y1 _ H0 H1 Ht) as Hv.
  destruct (decide (i = 0%nat)) as [->|Hne0].
  { rewrite lut_channel_first. simpl. rewrite clip01_id by exact H0.
    unfold Qdiv. rewrite !Qmult_0_l. ring. }
  destruct (decide (i = 255%nat)) as [->|Hne255].
  { rewrite lut_channel_last. simpl. rewrite clip01_id by exact H1. field. }
  unfold lut_channel.
  destruct (Nat.eqb_spec i 0) as [?|_]; [contradiction|].
  destruct (Nat.leb_spec 255 i) as [?|_]; [lia|].
  cbn [length seq List.filter Nat.sub].
  assert (E0 : Qle_bool (inject_Z (Z.of_nat i))
                 (inject_Z (Z.of_nat 0) * 255 / inject_Z (Z.of_nat 1)) = false).
  { apply not_true_is_false. rewrite Qle_bool_iff.
    change (inject_Z (Z.of_nat 0) * 255 / inject_Z (Z.of_nat 1))%Q with (0 * 255 / 1)%Q.
    intros Hle. assert (Hz : (inject_Z (Z.of_nat i) <= inject_Z 0)%Q).
    { apply Qle_trans with (0 * 255 / 1)%Q; [exact Hle|].
      vm_compute. discriminate. }
    rewrite <- Zle_Qle in Hz. lia. }
  assert (E1 : Qle_bool (inject_Z (Z.of_nat i))
                 (inject_Z (Z.of_nat 1) * 255 / inject_Z (Z.of_nat 1)) = true).
  { rewrite Qle_bool_iff.
    change (inject_Z (Z.of_nat 1) * 255 / inject_Z (Z.of_nat 1))%Q with (1 * 255 / 1)%Q.
    apply Qle_trans with 255%Q; [exact Hhi|]. vm_compute. discriminate. }
  rewrite E0, E1. cbn [negb length Nat.sub lookup list_lookup default].
  change (inject_Z (Z.of_nat 0)) with 0%Q. change (inject_Z (Z.of_nat 1)) with 1%Q.
  assert (Heq : ((inject_Z (Z.of_nat i) - 0 * 255 / 1) / (1 * 255 / 1 - 0 * 255 / 1)
                 * (y1 - y0) + y0
                 == y0 + inject_Z (Z.of_nat i) / 255 * (y1 - y0))%Q) by field.
  rewrite clip01_id.
  - exact Heq.
  - rewrite Heq. exact Hv.
Qed.

Lemma hex_val_range (c : ascii) (d : Z) : hex_val c = Some d -> (0 <= d <= 15)%Z.
Proof.
  unfold hex_val. intros H.
  repeat match type of H with
         | (if ?c then _ else _) = _ => destruct c eqn:?
         end; try discriminate H; injection H as <-; lia.
Qed.

Lemma channel_unit (hi lo : Z) :
  (0 <= hi <= 15)%Z -> (0 <= lo <= 15)%Z -> (0 <= channel hi lo <= 1)%Q.
Proof.
  intros Hhi Hlo. unfold channel. split.
  - apply Qle_shift_div_l; [reflexivity|]. rewrite Qmult_0_l.
    change 0%Q with (inject_Z 0). rewrite <- Zle_Qle. lia.
  - apply Qle_shift_div_r; [reflexivity|]. rewrite Qmult_1_l.
    change 255%Q with (inject_Z 255). rewrite <- Zle_Qle. lia.
Qed.

Lemma unit_one : (0 <= 1 <= 1)%Q.
Proof. split; discriminate. Qed.

Lemma hex_color_unit (digits : list Z) (c : rgba) :
  Forall (fun d => 0 <= d <= 15)%Z digits -> hex_color digits = Some c -> rgba_unit c.
Proof.
  intros Hd Hc.
  destruct digits as [|d1 [|d2 [|d3 [|d4 [|d5 [|d6 [|d7 [|d8 [|d9 ds]]]]]]]]];
    try discriminate Hc; simpl in Hc; injection Hc as <-;
    repeat match goal with
           | H : Forall _ (_ :: _) |- _ => apply Forall_cons in H as [? H]
           end;
    unfold rgba_unit, chan_r, chan_g, chan_b, chan_a; simpl;
    auto 10 using channel_unit, unit_one.
Qed.

Lemma colors_arg_strings (cs : list string) :
  colors_arg (JList (map JStr cs)) = Ok cs.
Proof.
  unfold colors_arg.
  assert (H : mapM (fun j => match j with JStr s => Some s | _ => None end)
                (map JStr cs) = Some cs).
  { apply mapM_Some. apply Forall2_fmap_l. apply Forall_Forall2_diag.
    apply Forall_forall. reflexivity. }
  rewrite H. reflexivity.
Qed.

Lemma edge_position_midpoint G b p u v xy :
  nondegenerate b -> midpoint G u v = Some xy ->
  edge_position G b p u v = Ok (normalized_position (is_vertical p) b xy).
Proof.
  destruct b as [[[minx miny] maxx] maxy]. intros [Hx Hy].
  unfold midpoint, edge_position.
  destruct (nodes G !! u) as [un|]; [|discriminate].
  destruct (nodes G !! v) as [vn|]; [|discriminate].
  cbn [of_option mbind result_bind option_bind].
  destruct (node_x un) as [ux|]; [|discriminate].
  destruct (node_x vn) as [vx|]; [|discriminate].
  cbn [of_option mbind result_bind option_bind].
  destruct (node_y un) as [uy|]; [|discriminate].
  destruct (node_y vn) as [vy|]; [|discriminate].
  cbn [of_option mbind result_bind option_bind].
  intros Hxy. injection Hxy as <-.
  unfold bounds_height, bounds_width, normalized_position.
  fold (is_vertical p).
  rewrite !or_one_other.
  - destruct (is_vertical p); unfold py_div.
    + destruct (Qeq_bool (maxy - miny) 0) eqn:E.
      * apply Qeq_bool_iff in E. exfalso. lra.
      * reflexivity.
    + destruct (Qeq_bool (maxx - minx) 0) eqn:E.
      * apply Qeq_bool_iff in E. exfalso. lra.
      * reflexivity.
  - intros E. lra.
  - intros E. lra.
Qed.

Section GradientSampling.

Variable named_color : string -> option rgba.

(** Colours have their channels between 0 and 1. *)
Hypothesis named_color_unit : forall s c, named_color s = Some c -> rgba_unit c.

Lemma to_rgba_unit (s : string) (c : rgba) :
  to_rgba named_color s = Some c -> rgba_unit c.
Proof.
  unfold to_rgba. destruct s as [|a rest]; [apply named_color_unit|].
  destruct (Ascii.eqb a "#"); [|apply named_color_unit].
  destruct (mapM hex_val (list_ascii_of_string rest)) as [digits|] eqn:Hd;
    [|discriminate].
  cbn [mbind option_bind]. apply hex_color_unit.
  apply mapM_Some in Hd. clear -Hd.
  induction Hd as [|a d l k Ha _ IH]; constructor; [|exact IH].
  eapply hex_val_range, Ha.
Qed.

Lemma stops_unit (cs : list string) (stops : cmap) :
  mapM (to_rgba named_color) cs = Some stops -> Forall rgba_unit stops.
Proof.
  intros H. apply mapM_Some in H.
  induction H as [|s c l k Hs _ IH]; constructor; [|exact IH].
  eapply to_rgba_unit, Hs.
Qed.

Lemma from_list_stops (cs : list string) (stops : cmap) :
  mapM (to_rgba named_color) cs = Some stops -> (2 <= length stops)%nat ->
  from_list named_color cs = Ok stops.
Proof.
  intros H Hlen. unfold from_list. destruct cs as [|s cs].
  - simpl in H. injection H as <-. simpl in Hlen. lia.
  - rewrite H. reflexivity.
Qed.

Lemma get_cached_cmap_ok cache (cs : list string) (stops : cmap) :
  cache_ok named_color cache -> from_list named_color cs = Ok stops ->
  exists cache', get_cached_cmap named_color cache cs = (Ok stops, cache')
                 /\ cache_ok named_color cache'.
Proof.
  intros Hok Hfl. unfold get_cached_cmap.
  destruct (cache !! cs) as [c|] eqn:E.
  - apply Hok in E. rewrite Hfl in E. injection E as <-. eauto.
  - rewrite Hfl. eexists. split; [reflexivity|].
    intros k c. rewrite lookup_insert. case_decide as Hk.
    + subst k. intros [= <-]. exact Hfl.
    + apply Hok.
Qed.

Lemma sample_gradient_ok cache G b p u v cs stops pos :
  cache_ok named_color cache ->
  dict_get p "colors" default_colors = JList (map JStr cs) ->
  mapM (to_rgba named_color) cs = Some stops -> (2 <= length stops)%nat ->
  edge_position G b p u v = Ok pos ->
  exists cache',
    sample_gradient named_color cache G b (JDict p) u v
    = (Ok (lut stops (lut_index pos)), cache')
    /\ cache_ok named_color cache'.
Proof.
  intros Hok Hcolors Hstops Hlen Hpos. unfold sample_gradient.
  rewrite Hpos, Hcolors, colors_arg_strings.
  destruct (get_cached_cmap_ok cache cs stops Hok
              (from_list_stops cs stops Hstops Hlen)) as (cache' & -> & Hok').
  exists cache'. split; [|exact Hok'].
  cbn [mbind result_bind]. unfold cmap_call.
  destruct (Nat.ltb_spec (length stops) 2) as [?|_]; [lia|]. reflexivity.
Qed.

End GradientSampling.

Lemma lut_first (stops : cmap) (c0 : rgba) :
  Forall rgba_unit stops -> head stops = Some c0 -> rgba_eq (lut stops 0) c0.
Proof.
  intros Hu Hh. destruct stops as [|c stops]; [discriminate|].
  injection Hh as ->. apply Forall_cons in Hu as [(Hr & Hg & Hb & Ha) _].
  unfold rgba_eq, lut. cbn [chan_r chan_g chan_b chan_a fst snd].
  rewrite !lut_channel_first. cbn [map lookup list_lookup default].
  repeat split; apply clip01_id; assumption.
Qed.

Lemma lut_last (stops : cmap) (c1 : rgba) :
  Forall rgba_unit stops -> last stops = Some c1 -> rgba_eq (lut stops 255) c1.
Proof.
  intros Hu Hl.
  assert (Hin : c1 ∈ stops).
  { rewrite last_lookup in Hl. eapply list_elem_of_lookup_2, Hl. }
  rewrite Forall_forall in Hu. destruct (Hu _ Hin) as (Hr & Hg & Hb & Ha).
  assert (Hch : forall ch : rgba -> Q,
             default 0%Q (map ch stops !! (length (map ch stops) - 1)%nat) = ch c1).
  { intros ch. rewrite length_map, list_lookup_fmap.
    rewrite last_lookup in Hl. replace (length stops - 1)%nat with (pred (length stops)) by lia.
    rewrite Hl. reflexivity. }
  unfold rgba_eq, lut. cbn [chan_r chan_g chan_b chan_a fst snd].
  rewrite !lut_channel_last, !Hch.
  repeat split; apply clip01_id; assumption.
Qed.

Lemma lut_two (c0 c1 : rgba) (i : nat) :
  rgba_unit c0 -> rgba_unit c1 -> (i <= 255)%nat ->
  rgba_eq (lut [c0; c1] i) (mix c0 c1 (inject_Z (Z.of_nat i) / 255)).
Proof.
  intros (Hr0 & Hg0 & Hb0 & Ha0) (Hr1 & Hg1 & Hb1 & Ha1) Hi.
  unfold rgba_eq, lut, mix. cbn [chan_r chan_g chan_b chan_a fst snd map].
  repeat split; apply lut_channel_two; assumption.
Qed.

Lemma mix_mono (y0 y1 : Q) (i j : nat) :
  (i <= j)%nat ->
  ((y0 <= y1 ->
    y0 + inject_Z (Z.of_nat i) / 255 * (y1 - y0)
    <= y0 + inject_Z (Z.of_nat j) / 255 * (y1 - y0))
   /\ (y1 <= y0 ->
       y0 + inject_Z (Z.of_nat j) / 255 * (y1 - y0)
       <= y0 + inject_Z (Z.of_nat i) / 255 * (y1 - y0)))%Q.
Proof.
  intros Hij.
  assert (H : (inject_Z (Z.of_nat i) / 255 <= inject_Z (Z.of_nat j) / 255)%Q).
  { apply Qmult_le_compat_r; [|discriminate]. rewrite <- Zle_Qle. lia. }
  split; intros Hy; nra.
Qed.

Lemma lut_two_mono (c0 c1 : rgba) (i j : nat) :
  rgba_unit c0 -> rgba_unit c1 -> (i <= j)%nat -> (j <= 255)%nat ->
  Forall (fun ch : rgba -> Q =>
            ((ch c0 <= ch c1 -> ch (lut [c0; c1] i) <= ch (lut [c0; c1] j))
             /\ (ch c1 <= ch c0 -> ch (lut [c0; c1] j) <= ch (lut [c0; c1] i)))%Q)
         channels.
Proof.
  intros (Hr0 & Hg0 & Hb0 & Ha0) (Hr1 & Hg1 & Hb1 & Ha1) Hij Hj.
  assert (Hi : (i <= 255)%nat) by lia.
  unfold channels, lut.
  repeat constructor; cbn [chan_r chan_g chan_b chan_a fst snd map];
    rewrite !lut_channel_two by assumption; apply mix_mono; assumption.
Qed.

Lemma axis_extent_pos (vertical : bool) (b : bounds_t) :
  nondegenerate b -> (0 < axis_max vertical b - axis_min vertical b)%Q.
Proof.
  destruct b as [[[minx miny] maxx] maxy]. intros [Hx Hy].
  destruct vertical; simpl; lra.
Qed.

Lemma normalized_position_min vertical b xy :
  nondegenerate b -> axis_of vertical xy == axis_min vertical b ->
  lut_index (normalized_position vertical b xy) = 0%nat.
Proof.
  intros Hb H. pose proof (axis_extent_pos vertical b Hb) as Hpos.
  change 0%nat with (lut_index 0). apply lut_index_comp.
  unfold normalized_position. apply clamp_at_zero.
  rewrite H. field. lra.
Qed.

Lemma normalized_position_max vertical b xy :
  nondegenerate b -> axis_of vertical xy == axis_max vertical b ->
  lut_index (normalized_position vertical b xy) = 255%nat.
Proof.
  intros Hb H. pose proof (axis_extent_pos vertical b Hb) as Hpos.
  change 255%nat with (lut_index 1). apply lut_index_comp.
  unfold normalized_position. apply clamp_at_one.
  rewrite H. field. lra.
Qed.

Lemma normalized_position_mono vertical b xy xy' :
  nondegenerate b -> (axis_of vertical xy <= axis_of vertical xy')%Q ->
  (normalized_position vertical b xy <= normalized_position vertical b xy')%Q.
Proof.
  intros Hb H. pose proof (axis_extent_pos vertical b Hb) as Hpos.
  unfold normalized_position. apply clamp_mono.
  apply Qmult_le_compat_r; [lra|]. apply Qlt_le_weak, Qinv_lt_0_compat, Hpos.
Qed.

Section EdgeGradient.

Variable named_color : string -> option rgba.
Hypothesis named_color_unit : forall s c, named_color s = Some c -> rgba_unit c.

Lemma edge_color_gradient theme G b cache e p color cache' :
  parse_color_config
    (dict_get theme (road_key (highway_of (edge_highway e))) (JStr "#3A3A3A"))
  = (true, JDict p) ->
  sample_gradient named_color cache G b (JDict p) (edge_u e) (edge_v e)
  = (Ok color, cache') ->
  edge_color named_color theme G b cache e = (Ok color, cache').
Proof.
  intros Hcfg Hs. unfold edge_color. rewrite Hcfg. cbn [negb].
  rewrite Hs. reflexivity.
Qed.

(** C5: for a gradient with at least two colour stops, an edge whose ends
    have coordinates and bounds of positive extent, the position is the
    midpoint's coordinate along the gradient axis (y when the direction is
    "vertical", x otherwise), normalised by the bounds and clamped to [0, 1];
    the colour is the entry of the 256-entry table of the stops at that
    position, and is what the loop over the edges appends; at the bounds'
    minimum it is the first stop, at the maximum the last; with two stops it
    is the mix of the two at [index/255], and the index and every channel
    move one way as the midpoint moves up the axis. *)
Theorem gradient_sampling (G : graph) (b : bounds_t) (p : gmap string json)
    (cs : list string) (stops : cmap) (cache : gmap (list string) cmap)
    (u v : Z) (xy : Q * Q) :
  nondegenerate b ->
  cache_ok named_color cache ->
  dict_get p "colors" default_colors = JList (map JStr cs) ->
  mapM (to_rgba named_color) cs = Some stops ->
  (2 <= length stops)%nat ->
  midpoint G u v = Some xy ->
  let vertical := is_vertical p in
  let pos := normalized_position vertical b xy in
  let color := lut stops (lut_index pos) in
  edge_position G b p u v = Ok pos
  /\ (0 <= pos <= 1)%Q
  /\ (exists cache',
        sample_gradient named_color cache G b (JDict p) u v = (Ok color, cache')
        /\ cache_ok named_color cache'
        /\ forall theme e,
             edge_u e = u -> edge_v e = v ->
             parse_color_config
               (dict_get theme (road_key (highway_of (edge_highway e)))
                  (JStr "#3A3A3A"))
             = (true, JDict p) ->
             edge_color named_color theme G b cache e = (Ok color, cache'))
  /\ (axis_of vertical xy == axis_min vertical b ->
        forall c0, head stops = Some c0 -> rgba_eq color c0)
  /\ (axis_of vertical xy == axis_max vertical b ->
        forall c1, last stops = Some c1 -> rgba_eq color c1)
  /\ (forall c0 c1, stops = [c0; c1] ->
        rgba_eq color (mix c0 c1 (inject_Z (Z.of_nat (lut_index pos)) / 255))
        /\ forall u' v' xy',
             midpoint G u' v' = Some xy' ->
             (axis_of vertical xy <= axis_of vertical xy')%Q ->
             let pos' := normalized_position vertical b xy' in
             let color' := lut stops (lut_index pos') in
             (lut_index pos <= lut_index pos')%nat
             /\ Forall (fun ch : rgba -> Q =>
                          ((ch c0 <= ch c1 -> ch color <= ch color')
                           /\ (ch c1 <= ch c0 -> ch color' <= ch color))%Q)
                       channels).
Proof.
  intros Hb Hok Hcolors Hstops Hlen Hmid vertical pos color.
  pose proof (edge_position_midpoint G b p u v xy Hb Hmid) as Hpos.
  pose proof (stops_unit named_color named_color_unit cs stops Hstops) as Hunit.
  split; [exact Hpos|].
  split; [apply clamp_range|].
  split.
  { destruct (sample_gradient_ok named_color cache G b p u v cs stops pos
                Hok Hcolors Hstops Hlen Hpos) as (cache' & Hs & Hok').
    exists cache'. split; [exact Hs|]. split; [exact Hok'|].
    intros theme e <- <- Hcfg. eapply edge_color_gradient; eassumption. }
  split.
  { intros Hmin c0 Hc0. subst color pos.
    rewrite (normalized_position_min vertical b xy Hb Hmin).
    apply lut_first; assumption. }
  split.
  { intros Hmax c1 Hc1. subst color pos.
    rewrite (normalized_position_max vertical b xy Hb Hmax).
    apply lut_last; assumption. }
  intros c0 c1 ->.
  apply Forall_cons in Hunit as [Hu0 Hunit].
  apply Forall_cons in Hunit as [Hu1 _].
  split.
  { apply lut_two; [assumption|assumption|apply lut_index_bound]. }
  intros u' v' xy' _ Hle pos' color'.
  assert (Hidx : (lut_index pos <= lut_index pos')%nat).
  { apply lut_index_mono, normalized_position_mono; assumption. }
  split; [exact Hidx|].
  apply lut_two_mono; [assumption|assumption|exact Hidx|apply lut_index_bound].
Qed.

End EdgeGradient.

Lemma no_names_unit : forall s c, no_names s = Some c -> rgba_unit c.
Proof. intros s c H. discriminate H. Qed.

Lemma cache_ok_empty named_color : cache_ok named_color ∅.
Proof. intros k c H. rewrite lookup_empty in H. discriminate H. Qed.

Lemma gradient_sampling_witness :
  nondegenerate (0, 0, 2, 4)%Q
  /\ midpoint sample_graph 1 2 = Some ((0 + 2) / 2, (0 + 4) / 2)%Q
  /\ edge_position sample_graph (0, 0, 2, 4)%Q sample_params 1 2
     = Ok (normalized_position true (0, 0, 2, 4)%Q ((0 + 2) / 2, (0 + 4) / 2)%Q)
  /\ lut_index (normalized_position true (0, 0, 2, 4)%Q ((0 + 2) / 2, (0 + 4) / 2)%Q)
     = 128%nat.
Proof.
  assert (Hb : nondegenerate (0, 0, 2, 4)%Q) by (split; reflexivity).
  assert (Hm : midpoint sample_graph 1 2 = Some ((0 + 2) / 2, (0 + 4) / 2)%Q)
    by reflexivity.
  split; [exact Hb|]. split; [exact Hm|]. split; [|vm_compute; reflexivity].
  apply (gradient_sampling no_names no_names_unit sample_graph (0, 0, 2, 4)%Q
           sample_params [ "#000000"; "#FFFFFF" ]%string sample_stops
           ∅ 1 2 _ Hb (cache_ok_empty no_names)).
  - reflexivity.
  - reflexivity.
  - simpl. lia.
  - exact Hm.
Defined.

(** The edge in the middle of a black-to-white vertical gradient is grey:
    entry 128 of the table, 128/255 on each channel; the edge at the bottom
    is black, the one at the top white, and an edge without a tag takes the
    default residential colour. *)
Example mid_gray :
  fst (get_edge_colors_by_type no_names
         {[ "road_motorway" := JDict sample_params ]}%string
         ∅ sample_graph (Some (0, 0, 2, 4)%Q))
  = Ok [ (0, 0, 0, 1);
         (2122416000 # 4228250625, 2122416000 # 4228250625,
          2122416000 # 4228250625, 1);
         (1, 1, 1, 1);
         (58 # 255, 58 # 255, 58 # 255, 1) ]%Q
  /\ (2122416000 # 4228250625 == 128 # 255)%Q.
Proof. split; vm_compute; reflexivity. Qed.

(** A list with a single colour is taken for a gradient, no table can be
    built from it, and the edge falls back to black. *)
Example single_stop_falls_back :
  fst (get_edge_colors_by_type no_names
         {[ "road_motorway" := JList [ JStr "#FF0000" ] ]}%string
         ∅ sample_graph (Some (0, 0, 2, 4)%Q))
  = Ok [ (0 # 255, 0 # 255, 0 # 255, 1);
         (0 # 255, 0 # 255, 0 # 255, 1);
         (0 # 255, 0 # 255, 0 # 255, 1);
         (58 # 255, 58 # 255, 58 # 255, 1) ]%Q.
Proof. vm_compute. reflexivity. Qed.

(** ** CacheStore: the key *)

(** *** Strings as lists of characters *)

Lemma list_ascii_app (s1 s2 : string) :
  list_ascii_of_string (s1 +:+ s2)
  = list_ascii_of_string s1 ++ list_ascii_of_string s2.
Proof. induction s1 as [|c s1 IH]; simpl; [reflexivity|]. rewrite IH. reflexivity. Qed.

Lemma list_ascii_inj (s1 s2 : string) :
  list_ascii_of_string s1 = list_ascii_of_string s2 -> s1 = s2.
Proof.
  intros H. rewrite <- (string_of_list_ascii_of_string s1),
    <- (string_of_list_ascii_of_string s2), H. reflexivity.
Qed.

Lemma list_ascii_length (s : string) :
  length (list_ascii_of_string s) = String.length s.
Proof. induction s as [|c s IH]; simpl; congruence. Qed.

Lemma str_app_inj_2 (s1 s2 t1 t2 : string) :
  String.length t1 = String.length t2 ->
  s1 +:+ t1 = s2 +:+ t2 -> s1 = s2 /\ t1 = t2.
Proof.
  intros Hlen H. apply (f_equal list_ascii_of_string) in H.
  rewrite !list_ascii_app in H.
  apply app_inj_2 in H as [H1 H2].
  - split; apply list_ascii_inj; assumption.
  - rewrite !list_ascii_length. exact Hlen.
Qed.

Lemma str_app_inv_tail (s1 s2 t : string) : s1 +:+ t = s2 +:+ t -> s1 = s2.
Proof. intros H. apply (str_app_inj_2 s1 s2 t t) in H as [H _]; auto. Qed.

Lemma str_app_inv_head (s t1 t2 : string) : s +:+ t1 = s +:+ t2 -> t1 = t2.
Proof. apply String.app_inj. Qed.

(** *** Decimal output *)

Lemma pretty_N_go_nonempty (x : N) (s : string) :
  s <> ""%string -> pretty_N_go x s <> ""%string.
Proof.
  revert s. induction (N.lt_wf_0 x) as [x _ IH]; intros s Hs.
  destruct (decide (x = 0)%N) as [->|Hx].
  - rewrite pretty_N_go_0. exact Hs.
  - rewrite pretty_N_go_step by lia. apply IH.
    + apply N.div_lt; lia.
    + discriminate.
Qed.

(** The decimal form of a natural number starts with a character that is
    not the minus sign. *)
Lemma pretty_nonneg_head (z : Z) :
  (0 <= z)%Z -> exists c s, pretty z = String c s /\ c <> "-"%char.
Proof.
  intros Hz. destruct (pretty z) as [|c s] eqn:E.
  - exfalso. destruct z as [|p|p]; [discriminate E| |lia].
    unfold pretty, pretty_Z, pretty, pretty_positive, pretty, pretty_N in E.
    case_decide; [discriminate|].
    destruct (N.pos p) eqn:Ep; [discriminate|].
    rewrite pretty_N_go_step in E by lia.
    eapply pretty_N_go_nonempty; [|exact E]. discriminate.
  - exists c, s. split; [reflexivity|]. intros ->.
    destruct z as [|p|p]; [discriminate E| |lia].
    unfold pretty, pretty_Z, pretty, pretty_positive, pretty, pretty_N in E.
    case_decide; [discriminate|].
    eapply (pretty_N_go_ne_dash (N.pos p) "" s); [discriminate|exact E].
Qed.

Lemma six_digits_length (m : Z) : String.length (six_digits m) = 6%nat.
Proof. reflexivity. Qed.

Lemma div_step (a b k : Z) :
  (0 < k)%Z -> (a / (k * 10) = b / (k * 10))%Z ->
  ((a / k) mod 10 = (b / k) mod 10)%Z -> (a / k = b / k)%Z.
Proof.
  intros Hk Hdiv Hmod. rewrite <- !Z.div_div in Hdiv by lia.
  rewrite (Z.div_mod (a / k) 10), (Z.div_mod (b / k) 10) by lia.
  rewrite Hdiv, Hmod. reflexivity.
Qed.

Lemma six_digits_inj (m m' : Z) :
  (0 <= m < 1000000)%Z -> (0 <= m' < 1000000)%Z ->
  six_digits m = six_digits m' -> m = m'.
Proof.
  intros Hm Hm' H. unfold six_digits in H.
  injection H as H5 H4 H3 H2 H1 H0.
  assert (Hd : forall k, (0 < k)%Z ->
             pretty_N_char (Z.to_N ((m / k) mod 10))
             = pretty_N_char (Z.to_N ((m' / k) mod 10)) ->
             ((m / k) mod 10 = (m' / k) mod 10)%Z).
  { intros k Hk Hc. apply pretty_N_char_inj in Hc.
    - pose proof (Z.mod_pos_bound (m / k) 10). pose proof (Z.mod_pos_bound (m' / k) 10).
      lia.
    - pose proof (Z.mod_pos_bound (m / k) 10). lia.
    - pose proof (Z.mod_pos_bound (m' / k) 10). lia. }
  apply Hd in H5, H4, H3, H2, H1, H0; try lia. clear Hd.
  assert (E6 : (m / (100000 * 10) = m' / (100000 * 10))%Z)
    by (rewrite !Z.div_small by lia; reflexivity).
  pose proof (div_step m m' 100000 ltac:(lia) E6 H5) as E5.
  pose proof (div_step m m' 10000 ltac:(lia) E5 H4) as E4.
  pose proof (div_step m m' 1000 ltac:(lia) E4 H3) as E3.
  pose proof (div_step m m' 100 ltac:(lia) E3 H2) as E2.
  pose proof (div_step m m' 10 ltac:(lia) E2 H1) as E1.
  pose proof (div_step m m' 1 ltac:(lia) E1 H0) as E0.
  rewrite !Z.div_1_r in E0. exact E0.
Qed.

Lemma round_half_even_nonneg (x : Q) : (0 <= x)%Q -> (0 <= round_half_even x)%Z.
Proof.
  intros Hx. unfold round_half_even.
  assert (Hf : (0 <= Qfloor x)%Z).
  { change 0%Z with (Qfloor 0). apply Qfloor_resp_le, Hx. }
  destruct (Qcompare _ _); [destruct (Z.even _)| |]; lia.
Qed.

Lemma rounded_6_nonneg (q : Q) : (0 <= rounded_6 q)%Z.
Proof.
  apply round_half_even_nonneg. apply Qmult_le_0_compat; [apply Qabs_nonneg|].
  discriminate.
Qed.

Lemma magnitude_inj (n n' : Z) :
  (0 <= n)%Z -> (0 <= n')%Z ->
  pretty (n / 1000000)%Z +:+ "." +:+ six_digits (n mod 1000000)
  = pretty (n' / 1000000)%Z +:+ "." +:+ six_digits (n' mod 1000000) ->
  n = n'.
Proof.
  intros Hn Hn' H. apply str_app_inj_2 in H as [Hint Hfrac]; [|reflexivity].
  apply (inj pretty) in Hint. apply str_app_inv_head in Hfrac.
  apply six_digits_inj in Hfrac; [|apply Z.mod_pos_bound; lia..].
  rewrite (Z.div_mod n 1000000), (Z.div_mod n' 1000000) by lia.
  rewrite Hint, Hfrac. reflexivity.
Qed.

(** Two numbers print alike only if they round to the same magnitude and
    have the same sign. *)
Lemma format_6f_inj (q q' : Q) :
  format_6f q = format_6f q' ->
  rounded_6 q = rounded_6 q' /\ ((q < 0)%Q <-> (q' < 0)%Q).
Proof.
  unfold format_6f.
  pose proof (rounded_6_nonneg q) as Hn. pose proof (rounded_6_nonneg q') as Hn'.
  destruct (pretty_nonneg_head (rounded_6 q / 1000000)) as (c & s & Hc & Hdash);
    [apply Z.div_pos; lia|].
  destruct (pretty_nonneg_head (rounded_6 q' / 1000000)) as (c' & s' & Hc' & Hdash');
    [apply Z.div_pos; lia|].
  destruct (Qlt_le_dec q 0) as [Hq|Hq], (Qlt_le_dec q' 0) as [Hq'|Hq'].
  - intros H. apply str_app_inv_head in H. split; [|tauto].
    apply magnitude_inj; assumption.
  - rewrite Hc'. simpl. intros H. injection H as H _. congruence.
  - rewrite Hc. simpl. intros H. injection H as H _. congruence.
  - simpl. intros H. split; [apply magnitude_inj; assumption|].
    split; intros Hneg; exfalso; [apply (Qlt_not_le q 0)|apply (Qlt_not_le q' 0)];
      assumption.
Qed.

(** *** Joined names *)

Lemma append_cons (c : ascii) (s t : string) :
  String c s +:+ t = String c (s +:+ t).
Proof. reflexivity. Qed.

Lemma append_nil_l (t : string) : "" +:+ t = t.
Proof. reflexivity. Qed.

Lemma append_nil_r (s : string) : s +:+ "" = s.
Proof.
  induction s as [|c s IH]; [reflexivity|]. rewrite append_cons, IH. reflexivity.
Qed.

Lemma concat_cons (x : string) (xs : list string) :
  String.concat "_" (x :: xs)
  = x +:+ match xs with
          | [] => ""
          | _ :: _ => "_" +:+ String.concat "_" xs
          end.
Proof. destruct xs; simpl; [rewrite append_nil_r|]; reflexivity. Qed.

(** A part without separator, followed by nothing or by a separator, is
    found again from the whole. *)
Lemma split_at_sep (x x' r r' : string) :
  has_char "_" x = false -> has_char "_" x' = false ->
  (r = ""%string \/ exists r0, r = String "_" r0) ->
  (r' = ""%string \/ exists r0, r' = String "_" r0) ->
  x +:+ r = x' +:+ r' -> x = x' /\ r = r'.
Proof.
  revert x'. induction x as [|c y IH]; intros x' Hx Hx' Hr Hr' H.
  - destruct x' as [|c' y']; [auto|]. exfalso.
    rewrite append_nil_l, append_cons in H. simpl in Hx'.
    apply orb_false_elim in Hx' as [Hc' _].
    destruct Hr as [->|[r0 ->]]; [discriminate|].
    injection H as <- _. discriminate Hc'.
  - destruct x' as [|c' y'].
    + exfalso. rewrite append_nil_l, append_cons in H. simpl in Hx.
      apply orb_false_elim in Hx as [Hc _].
      destruct Hr' as [->|[r0 ->]]; [discriminate|].
      injection H as -> _. discriminate Hc.
    + rewrite !append_cons in H. simpl in Hx, Hx'. injection H as <- H.
      apply orb_false_elim in Hx as [_ Hx]. apply orb_false_elim in Hx' as [_ Hx'].
      destruct (IH y' Hx Hx' Hr Hr' H) as [-> ->]. auto.
Qed.

Lemma plain_name_spec (s : string) :
  plain_name s = true -> s <> ""%string /\ has_char "_" s = false.
Proof.
  unfold plain_name. rewrite andb_true_iff, !negb_true_iff.
  intros [Hne Hc]. split; [|exact Hc]. intros ->. discriminate Hne.
Qed.

Lemma concat_plain_inj (l1 l2 : list string) :
  Forall (fun s => plain_name s = true) l1 ->
  Forall (fun s => plain_name s = true) l2 ->
  String.concat "_" l1 = String.concat "_" l2 -> l1 = l2.
Proof.
  revert l2. induction l1 as [|x xs IH]; intros l2 H1 H2 H.
  - destruct l2 as [|x' xs']; [reflexivity|]. exfalso.
    apply Forall_cons in H2 as [Hx' _]. apply plain_name_spec in Hx' as [Hne _].
    rewrite concat_cons in H. destruct x'; [exact (Hne eq_refl)|].
    rewrite append_cons in H. discriminate H.
  - destruct l2 as [|x' xs'].
    + exfalso. apply Forall_cons in H1 as [Hx _].
      apply plain_name_spec in Hx as [Hne _].
      rewrite concat_cons in H. destruct x; [exact (Hne eq_refl)|].
      rewrite append_cons in H. discriminate H.
    + apply Forall_cons in H1 as [Hx H1]. apply Forall_cons in H2 as [Hx' H2].
      apply plain_name_spec in Hx as [_ Hx]. apply plain_name_spec in Hx' as [_ Hx'].
      rewrite !concat_cons in H.
      apply split_at_sep in H as [-> Ht]; try assumption.
      * f_equal. destruct xs as [|y ys], xs' as [|y' ys'];
          try reflexivity; try discriminate Ht.
        apply IH; [assumption|assumption|].
        apply str_app_inv_head in Ht. exact Ht.
      * destruct xs; [left; reflexivity|right; eexists; reflexivity].
      * destruct xs'; [left; reflexivity|right; eexists; reflexivity].
Qed.

Lemma feature_names_plain : Forall (fun s => plain_name s = true) feature_names.
Proof. repeat constructor. Qed.

Lemma enabled_names_features (theme : gmap string json) (name : string) :
  name ∈ enabled_names (get_enabled_features theme)
  <-> name ∈ feature_names /\ has_key name theme = true.
Proof.
  unfold enabled_names. rewrite list_elem_of_fmap. split.
  - intros ([n b] & -> & Hin). apply list_elem_of_filter in Hin as [Hb Hin].
    simpl in Hb. subst b.
    apply get_enabled_features_item in Hin as [Hn Hk]. auto.
  - intros [Hn Hk]. exists (name, true). split; [reflexivity|].
    apply list_elem_of_filter. split; [reflexivity|].
    unfold get_enabled_features. rewrite list_elem_of_fmap.
    unfold feature_names in Hn. rewrite list_elem_of_fmap in Hn.
    destruct Hn as ([n k] & -> & Hin). exists (n, k). split; [|exact Hin].
    pose proof feature_keys_same as Hs. rewrite Forall_forall in Hs.
    specialize (Hs _ Hin). simpl in *. subst k. rewrite Hk. reflexivity.
Qed.

(** Different feature sets give different joined names. *)
Lemma features_str_inj (theme theme' : gmap string json) :
  features_str (get_enabled_features theme)
  = features_str (get_enabled_features theme') ->
  get_enabled_features theme = get_enabled_features theme'.
Proof.
  intros H. unfold features_str, sorted in H.
  assert (Hplain : forall t : gmap string json,
             Forall (fun s => plain_name s = true)
               (merge_sort String.le (enabled_names (get_enabled_features t)))).
  { intros t. rewrite merge_sort_Permutation. apply Forall_forall.
    intros s Hs. apply enabled_names_features in Hs as [Hs _].
    pose proof feature_names_plain as Hp. rewrite Forall_forall in Hp. auto. }
  apply concat_plain_inj in H; [|apply Hplain..].
  assert (Hperm : enabled_names (get_enabled_features theme)
                  ≡ₚ enabled_names (get_enabled_features theme')).
  { rewrite <- (merge_sort_Permutation String.le (enabled_names (get_enabled_features theme))),
      H. apply merge_sort_Permutation. }
  apply get_enabled_features_dom. intros name Hn.
  rewrite <- !has_key_dom.
  pose proof (enabled_names_features theme name) as E.
  pose proof (enabled_names_features theme' name) as E'.
  rewrite Hperm in E. tauto.
Qed.

(** *** The digest is one of finitely many *)

Lemma add32_range (a b : Z) : word32 (add32 a b).
Proof.
  unfold word32, add32, mask32. change 4294967295%Z with (Z.ones 32).
  rewrite Z.land_ones by lia. apply Z.mod_pos_bound. reflexivity.
Qed.

Lemma md5_block_range (st : md5_state) (block : list Z) :
  words32 (md5_block st block).
Proof.
  unfold md5_block.
  destruct (foldl _ st (seq 0 64)) as [[[A B] C] D].
  destruct st as [[[a0 b0] c0] d0]. cbv beta iota.
  repeat split; apply add32_range.
Qed.

Lemma md5_digest_range (msg : list Z) : words32 (md5_digest msg).
Proof.
  unfold md5_digest. generalize (chunks (length (md5_pad msg)) 64 (md5_pad msg)).
  intros blocks.
  assert (Hinit : words32 md5_init) by (unfold words32, word32, md5_init; lia).
  revert Hinit. generalize md5_init.
  induction blocks as [|blk blocks IH]; intros st Hst; simpl; [exact Hst|].
  apply IH, md5_block_range.
Qed.

Lemma digest_num_range (st : md5_state) :
  words32 st -> (0 <= digest_num st < 2 ^ 128)%Z.
Proof.
  destruct st as [[[A B] C] D]. unfold words32, word32, digest_num.
  intros (HA & HB & HC & HD). change (2 ^ 128)%Z with
    (4294967296 * (4294967296 * (4294967296 * 4294967296)))%Z.
  nia.
Qed.

Lemma digest_num_inj (st st' : md5_state) :
  words32 st -> words32 st' -> digest_num st = digest_num st' -> st = st'.
Proof.
  destruct st as [[[A B] C] D], st' as [[[A' B'] C'] D'].
  unfold words32, word32, digest_num.
  intros (HA & HB & HC & HD) (HA' & HB' & HC' & HD') H.
  assert (A = A' /\ (B + 4294967296 * (C + 4294967296 * D)
                     = B' + 4294967296 * (C' + 4294967296 * D'))%Z) as [-> H1] by lia.
  assert (B = B' /\ (C + 4294967296 * D = C' + 4294967296 * D')%Z) as [-> H2] by lia.
  assert (C = C' /\ D = D') as [-> ->] by lia.
  reflexivity.
Qed.

(** No function from [0..n] into [0..n-1] is injective. *)
Lemma pigeonhole (n : Z) :
  (0 <= n)%Z ->
  forall f : Z -> Z,
    (forall i, 0 <= i <= n -> 0 <= f i < n)%Z ->
    ~ (forall i j, (0 <= i <= n)%Z -> (0 <= j <= n)%Z -> f i = f j -> i = j).
Proof.
  intros Hn. pattern n. apply natlike_ind; [| |exact Hn]; clear n Hn.
  - intros f Hr _. specialize (Hr 0%Z). lia.
  - intros n Hn IH f Hr Hinj.
    set (top := f (Z.succ n)).
    apply (IH (fun i => if (f i <? top)%Z then f i else (f i - 1)%Z)).
    + intros i Hi.
      assert (f i <> top).
      { intros E. apply Hinj in E; lia. }
      pose proof (Hr i ltac:(lia)). pose proof (Hr (Z.succ n) ltac:(lia)).
      fold top in H1. destruct (Z.ltb_spec (f i) top); lia.
    + intros i j Hi Hj E.
      assert (f i <> top) by (intros E'; apply Hinj in E'; lia).
      assert (f j <> top) by (intros E'; apply Hinj in E'; lia).
      apply Hinj; [lia|lia|].
      destruct (Z.ltb_spec (f i) top), (Z.ltb_spec (f j) top); lia.
Qed.

(** C2, as the spec states it, fails for the digest: among the keys of the
    radii 0 to 2^128, all other inputs fixed, two are equal, because a digest
    is one of 2^128 values. *)
Lemma cache_key_collision :
  ~ (forall dist dist' : Z, dist <> dist' ->
       get_cache_key (0, 0)%Q dist "drive" (get_enabled_features ∅)
       <> get_cache_key (0, 0)%Q dist' "drive" (get_enabled_features ∅)).
Proof.
  intros H.
  apply (pigeonhole (2 ^ 128) ltac:(lia)
           (fun d => digest_num
                       (md5_digest
                          (encode (key_string (0, 0)%Q d "drive"
                                     (get_enabled_features ∅)))))).
  - intros i _. apply digest_num_range, md5_digest_range.
  - intros i j _ _ E. destruct (decide (i = j)) as [Heq|Hne]; [exact Heq|].
    exfalso. apply (H i j Hne). unfold get_cache_key, md5_hex. f_equal.
    apply digest_num_inj; [apply md5_digest_range..|exact E].
Qed.

Lemma key_string_lat lat lat' lon dist network_type e :
  key_string (lat, lon) dist network_type e
  = key_string (lat', lon) dist network_type e ->
  format_6f lat = format_6f lat'.
Proof. unfold key_string. apply str_app_inv_tail. Qed.

Lemma key_string_lon lat lon lon' dist network_type e :
  key_string (lat, lon) dist network_type e
  = key_string (lat, lon') dist network_type e ->
  format_6f lon = format_6f lon'.
Proof.
  unfold key_string. intros H. do 2 apply str_app_inv_head in H.
  apply str_app_inv_tail in H. exact H.
Qed.

Lemma key_string_dist point dist dist' network_type e :
  key_string point dist network_type e = key_string point dist' network_type e ->
  dist = dist'.
Proof.
  destruct point as [lat lon]. unfold key_string. intros H.
  do 4 apply str_app_inv_head in H. apply str_app_inv_tail in H.
  apply (inj pretty) in H. exact H.
Qed.

Lemma key_string_network_type point dist network_type network_type' e :
  key_string point dist network_type e = key_string point dist network_type' e ->
  network_type = network_type'.
Proof.
  destruct point as [lat lon]. unfold key_string. intros H.
  do 6 apply str_app_inv_head in H. apply str_app_inv_tail in H. exact H.
Qed.

Lemma key_string_features point dist network_type theme theme' :
  key_string point dist network_type (get_enabled_features theme)
  = key_string point dist network_type (get_enabled_features theme') ->
  get_enabled_features theme = get_enabled_features theme'.
Proof.
  destruct point as [lat lon]. unfold key_string. intros H.
  do 8 apply str_app_inv_head in H. apply features_str_inj, H.
Qed.

(** C2 (amended): the key is the MD5 digest of a string made of the
    inputs; themes with the same feature keys give the same key; and the
    string that is hashed changes whenever the latitude or the longitude
    changes in its six-decimal rounding or in its sign, or the radius, the
    network type or the set of enabled features changes. The digests of two
    different strings differ unless MD5 collides on them. *)
Theorem cache_key_spec (point : Q * Q) (dist : Z) (network_type : string)
    (theme : gmap string json) :
  get_cache_key point dist network_type (get_enabled_features theme)
  = md5_hex (key_string point dist network_type (get_enabled_features theme))
  /\ (forall theme' : gmap string json,
        (forall name, name ∈ feature_names ->
           (name ∈ dom theme <-> name ∈ dom theme')) ->
        get_cache_key point dist network_type (get_enabled_features theme')
        = get_cache_key point dist network_type (get_enabled_features theme))
  /\ (forall lat',
        rounded_6 lat' <> rounded_6 point.1
        \/ ~ ((lat' < 0)%Q <-> (point.1 < 0)%Q) ->
        key_string (lat', point.2) dist network_type (get_enabled_features theme)
        <> key_string point dist network_type (get_enabled_features theme))
  /\ (forall lon',
        rounded_6 lon' <> rounded_6 point.2
        \/ ~ ((lon' < 0)%Q <-> (point.2 < 0)%Q) ->
        key_string (point.1, lon') dist network_type (get_enabled_features theme)
        <> key_string point dist network_type (get_enabled_features theme))
  /\ (forall dist', dist' <> dist ->
        key_string point dist' network_type (get_enabled_features theme)
        <> key_string point dist network_type (get_enabled_features theme))
  /\ (forall network_type', network_type' <> network_type ->
        key_string point dist network_type' (get_enabled_features theme)
        <> key_string point dist network_type (get_enabled_features theme))
  /\ (forall theme' : gmap string json,
        get_enabled_features theme' <> get_enabled_features theme ->
        key_string point dist network_type (get_enabled_features theme')
        <> key_string point dist network_type (get_enabled_features theme)).
Proof.
  split; [reflexivity|]. split.
  { intros theme' Hdom. f_equal. symmetry. apply get_enabled_features_dom, Hdom. }
  destruct point as [lat lon]. cbn [fst snd].
  split; [|split; [|split; [|split]]].
  - intros lat' Hdiff Hkey. apply key_string_lat, format_6f_inj in Hkey. tauto.
  - intros lon' Hdiff Hkey. apply key_string_lon, format_6f_inj in Hkey. tauto.
  - intros dist' Hdiff Hkey. apply key_string_dist in Hkey. contradiction.
  - intros nt' Hdiff Hkey. apply key_string_network_type in Hkey. contradiction.
  - intros theme' Hdiff Hkey. apply key_string_features in Hkey. contradiction.
Qed.

Lemma cache_key_spec_witness :
  (29000 <> 8000)%Z
  /\ key_string (48.8566, 2.3522)%Q 29000 "drive" (get_enabled_features default_theme)
     <> key_string (48.8566, 2.3522)%Q 8000 "drive" (get_enabled_features default_theme).
Proof.
  assert (H : (29000 <> 8000)%Z) by lia.
  split; [exact H|].
  destruct (cache_key_spec (48.8566, 2.3522)%Q 8000 "drive" default_theme)
    as (_ & _ & _ & _ & Hdist & _).
  exact (Hdist 29000%Z H).
Defined.

(** The first end-to-end scenario of the spec: a theme with only [water] and
    [road_default] enables water alone, and its key is not the key of the
    same request with [parks] added. *)
Example scenario_water_only :
  get_enabled_features
    {[ "water" := JStr "#0000FF"; "road_default" := JStr "#333333" ]}%string
  = [ ("water", true); ("parks", false); ("stadiums", false);
      ("railway", false); ("forest", false); ("beach", false);
      ("coastline", false); ("education", false); ("worship", false);
      ("airport", false) ]%string
  /\ get_cache_key (48.8566, 2.3522)%Q 29000 "drive"
       (get_enabled_features
          {[ "water" := JStr "#0000FF"; "road_default" := JStr "#333333" ]}%string)
     = "9b3158048d100f501b9e44caee1c0396"%string
  /\ get_cache_key (48.8566, 2.3522)%Q 29000 "drive"
       (get_enabled_features
          {[ "water" := JStr "#0000FF"; "parks" := JStr "#00FF00";
             "road_default" := JStr "#333333" ]}%string)
     = "1da4a8c76513a313b073fc5959ae130d"%string.
Proof. repeat split; vm_compute; reflexivity. Qed.

(** The test suite of RFC 1321. *)
Example md5_test_suite :
  md5_hex "" = "d41d8cd98f00b204e9800998ecf8427e"%string
  /\ md5_hex "a" = "0cc175b9c0f1b6a831c399e269772661"%string
  /\ md5_hex "abc" = "900150983cd24fb0d6963f7d28e17f72"%string
  /\ md5_hex "message digest" = "f96b697d7cb7938d525a2f31aaf161d0"%string
  /\ md5_hex "abcdefghijklmnopqrstuvwxyz" = "c3fcd3d76192e4007dfb496cca67e13b"%string
  /\ md5_hex "12345678901234567890123456789012345678901234567890123456789012345678901234567890"
     = "57edf4a22be3c955ac49da2e2107b67a"%string.
Proof. repeat split; vm_compute; reflexivity. Qed.

(** [.6f] on a tie (1/128 = 0.0078125), on a negative number that rounds to
    zero, and on a plain coordinate. *)
Example format_6f_samples :
  format_6f (1 # 128) = "0.007812"%string
  /\ format_6f (- (1 # 1000000000)) = "-0.000000"%string
  /\ format_6f (-12345.678) = "-12345.678000"%string
  /\ format_6f 48.8566 = "48.856600"%string.
Proof. repeat split; vm_compute; reflexivity. Qed.

(** * Further properties of the code *)

(** ** The colour configuration *)

(** X1: parsing the value that [parse_color_config] returned gives the same
    verdict and the same value again: the shorthand list is expanded once,
    and an expanded gradient is left alone. *)
Theorem parse_color_config_fixed (config : json) :
  parse_color_config (snd (parse_color_config config)) = parse_color_config config.
Proof.
  destruct config as [| | | |l|d]; try reflexivity.
  simpl. destruct (json_is_str (d !! "type"%string) "gradient") eqn:E; simpl;
    rewrite E; reflexivity.
Qed.

(** ** The cache directory *)


Lemma load_after_save (cache_dir : gmap string cache_file) (cache_key : string)
    (data : dataset) :
  load_from_cache (save_to_cache cache_dir cache_key data Written) cache_key
  = Some data.
Proof.
  unfold load_from_cache, save_to_cache. rewrite lookup_insert_eq. reflexivity.
Qed.



(** X3: a write that fails inside [pickle.dump] leaves an entry that loads
    as a miss, even where a good entry was before; a write that fails at
    [open] changes nothing. *)
Theorem cache_failed_write (cache_dir : gmap string cache_file)
    (cache_key : string) (old data : dataset) :
  cache_dir !! cache_path cache_key = Some (Pickled old) ->
  load_from_cache cache_dir cache_key = Some old
  /\ load_from_cache (save_to_cache cache_dir cache_key data DumpFails) cache_key
     = None
  /\ load_from_cache (save_to_cache cache_dir cache_key data OpenFails) cache_key
     = Some old.
Proof.
  intros Hold. unfold load_from_cache, save_to_cache.
  rewrite lookup_insert_eq, Hold. auto.
Qed.

Lemma cache_failed_write_witness :
  let d := {| d_G := sample_graph; d_water := None; d_parks := None;
              d_stadiums := None; d_railways := None; d_forests := None;
              d_beaches := None; d_coastlines := None; d_education := None;
              d_worship := None; d_airports := None |} in
  ({[ "a.pkl"%string := Pickled d ]} : gmap string cache_file) !! cache_path "a"
  = Some (Pickled d)
  /\ load_from_cache
       (save_to_cache {[ "a.pkl"%string := Pickled d ]} "a" d DumpFails) "a"
     = None.
Proof.
  intros d.
  assert (H : ({[ "a.pkl"%string := Pickled d ]} : gmap string cache_file)
              !! cache_path "a" = Some (Pickled d)) by reflexivity.
  split; [exact H|].
  destruct (cache_failed_write {[ "a.pkl"%string := Pickled d ]} "a" d d H)
    as (_ & Hdump & _).
  exact Hdump.
Defined.

(** ** Acquiring the data *)

Lemma acquire_hit F cache_dir w theme point dist network_type data :
  load_from_cache cache_dir
    (get_cache_key point dist network_type (get_enabled_features theme))
  = Some data ->
  acquire F cache_dir w theme point dist true network_type
  = Ok {| acq_data := data; acq_requests := []; acq_cache_dir := cache_dir |}.
Proof. intros H. unfold acquire. rewrite H. reflexivity. Qed.

(** X4: after a render that used the cache and wrote its entry, a second
    render of the same request, also with a theme that differs in colours
    only, takes the same data from the cache, sends no request to the
    fetcher and leaves the cache as it is. *)
Theorem acquire_again_no_fetch (F : fetcher) (cache_dir : gmap string cache_file)
    (w : write_outcome) (theme theme' : gmap string json) (point : Q * Q)
    (dist : Z) (network_type : string) (a : acquired) :
  acquire F cache_dir Written theme point dist true network_type = Ok a ->
  (forall name, name ∈ feature_names -> (name ∈ dom theme <-> name ∈ dom theme')) ->
  acquire F (acq_cache_dir a) w theme' point dist true network_type
  = Ok {| acq_data := acq_data a; acq_requests := [];
          acq_cache_dir := acq_cache_dir a |}.
Proof.
  intros Ha Hdom. apply acquire_hit.
  rewrite <- (get_enabled_features_dom theme theme' Hdom).
  destruct (load_from_cache cache_dir
              (get_cache_key point dist network_type (get_enabled_features theme)))
    as [data|] eqn:Hload.
  - rewrite (acquire_hit F cache_dir Written theme point dist network_type data Hload)
      in Ha.
    apply Ok_inj in Ha. subst a. exact Hload.
  - rewrite (acquire_miss F cache_dir Written theme point dist network_type Hload)
      in Ha.
    destruct (download F point dist network_type (get_enabled_features theme))
      as [data|e]; [|discriminate Ha].
    apply Ok_inj in Ha. subst a. cbn [acq_cache_dir acq_data].
    apply load_after_save.
Qed.

Lemma acquire_again_no_fetch_witness :
  exists a,
    acquire sample_fetcher ∅ Written default_theme (0, 0)%Q 1000 true "drive" = Ok a
    /\ acq_requests a = [ "streets"; "water"; "parks" ]%string
    /\ acquire sample_fetcher (acq_cache_dir a) DumpFails
         (<[ "water" := JStr "#123456" ]> default_theme)%string
         (0, 0)%Q 1000 true "drive"
       = Ok {| acq_data := acq_data a; acq_requests := [];
               acq_cache_dir := acq_cache_dir a |}.
Proof.
  destruct (acquire sample_fetcher ∅ Written default_theme (0, 0)%Q 1000 true "drive")
    as [a|e] eqn:Ha.
  - exists a. split; [reflexivity|]. split.
    + vm_compute in Ha. apply Ok_inj in Ha. subst a. reflexivity.
    + refine (acquire_again_no_fetch sample_fetcher ∅ DumpFails default_theme _
                (0, 0)%Q 1000 "drive" a Ha _).
      intros name _. rewrite dom_insert_L.
      assert ("water"%string ∈ dom default_theme) by (vm_compute; reflexivity).
      set_solver.
  - vm_compute in Ha. discriminate Ha.
Defined.

(** X5: without the cache ([--no-cache]) the data is always downloaded: the
    outcome does not depend on what the cache directory holds, and the
    directory is handed back untouched. *)
Theorem acquire_no_cache (F : fetcher) (cache_dir cache_dir' : gmap string cache_file)
    (w w' : write_outcome) (theme : gmap string json) (point : Q * Q)
    (dist : Z) (network_type : string) :
  acq_view (acquire F cache_dir w theme point dist false network_type)
  = acq_view (acquire F cache_dir' w' theme point dist false network_type)
  /\ (forall a,
        acquire F cache_dir w theme point dist false network_type = Ok a ->
        acq_cache_dir a = cache_dir
        /\ acq_requests a = fetch_requests (get_enabled_features theme)
        /\ download F point dist network_type (get_enabled_features theme)
           = Ok (acq_data a)).
Proof.
  unfold acquire. cbn [negb].
  destruct (download F point dist network_type (get_enabled_features theme))
    as [data|e]; cbn [mbind result_bind acq_view].
  - split; [reflexivity|]. intros a Ha. apply Ok_inj in Ha. subst a. auto.
  - split; [reflexivity|]. intros a Ha. discriminate Ha.
Qed.

Lemma acquire_no_cache_witness :
  exists a,
    acquire sample_fetcher ∅ Written default_theme (0, 0)%Q 1000 false "drive" = Ok a
    /\ acq_cache_dir a = ∅.
Proof.
  destruct (acquire sample_fetcher ∅ Written default_theme (0, 0)%Q 1000 false "drive")
    as [a|e] eqn:Ha.
  - exists a. split; [reflexivity|].
    destruct (acquire_no_cache sample_fetcher ∅ ∅ Written Written default_theme
                (0, 0)%Q 1000 "drive") as [_ H].
    destruct (H a Ha) as [Hdir _]. exact Hdir.
  - vm_compute in Ha. discriminate Ha.
Defined.

Lemma dataset_feature_download F point dist e (G : graph) name :
  name ∈ feature_names ->
  dataset_feature
    {| d_G := G;
       d_water := fetch_feature F point dist e "water";
       d_parks := fetch_feature F point dist e "parks";
       d_stadiums := fetch_feature F point dist e "stadiums";
       d_railways := fetch_feature F point dist e "railway";
       d_forests := fetch_feature F point dist e "forest";
       d_beaches := fetch_feature F point dist e "beach";
       d_coastlines := fetch_feature F point dist e "coastline";
       d_education := fetch_feature F point dist e "education";
       d_worship := fetch_feature F point dist e "worship";
       d_airports := fetch_feature F point dist e "airport" |} name
  = fetch_feature F point dist e name.
Proof.
  unfold feature_names, feature_keys. cbn [map fst].
  rewrite !elem_of_cons, elem_of_nil.
  intros [->|[->|[->|[->|[->|[->|[->|[->|[->|[->|[]]]]]]]]]]]; reflexivity.
Qed.

(** X6: a download fails only when the street network request fails; a
    feature request that raises, like a feature that is switched off, leaves
    that collection absent, and the other collections are what the fetcher
    returned. *)
Theorem download_isolates_failures (F : fetcher) (point : Q * Q) (dist : Z)
    (network_type : string) (e : list (string * bool)) :
  match graph_from_point F point dist network_type with
  | Raise err => download F point dist network_type e = Raise err
  | Ok G =>
      exists data,
        download F point dist network_type e = Ok data
        /\ d_G data = G
        /\ forall name, name ∈ feature_names ->
             dataset_feature data name
             = if feature_enabled e name then
                 match features_from_point F point name dist with
                 | Ok g => Some g
                 | Raise _ => None
                 end
               else None
  end.
Proof.
  unfold download.
  destruct (graph_from_point F point dist network_type) as [G|err];
    cbn [mbind result_bind]; [|reflexivity].
  eexists. split; [reflexivity|]. split; [reflexivity|].
  intros name Hname. rewrite dataset_feature_download by exact Hname.
  unfold fetch_feature. destruct (feature_enabled e name); [|reflexivity].
  destruct (features_from_point F point name dist); reflexivity.
Qed.

Lemma feature_enabled_get (theme : gmap string json) (name : string) :
  name ∈ feature_names ->
  feature_enabled (get_enabled_features theme) name = has_key name theme.
Proof.
  unfold feature_names, feature_keys. cbn [map fst].
  rewrite !elem_of_cons, elem_of_nil.
  intros [->|[->|[->|[->|[->|[->|[->|[->|[->|[->|[]]]]]]]]]]]; reflexivity.
Qed.

Lemma filter_ext_elem {A : Type} (P1 P2 : A -> Prop)
    `{!forall x, Decision (P1 x)} `{!forall x, Decision (P2 x)} (l : list A) :
  (forall x, x ∈ l -> (P1 x <-> P2 x)) -> filter P1 l = filter P2 l.
Proof.
  induction l as [|x l IH]; intros Hext; [reflexivity|].
  rewrite !filter_cons.
  assert (Hx : P1 x <-> P2 x) by (apply Hext; left).
  rewrite IH by (intros y Hy; apply Hext; right; exact Hy).
  destruct (decide (P1 x)), (decide (P2 x)); tauto || reflexivity.
Qed.

Lemma fetch_requests_features (theme : gmap string json) :
  fetch_requests (get_enabled_features theme)
  = "streets"%string :: filter (fun name => has_key name theme = true) feature_names.
Proof.
  unfold fetch_requests. apply (f_equal (cons "streets"%string)).
  change [ "water"; "parks"; "stadiums"; "railway"; "forest"; "beach";
           "coastline"; "education"; "worship"; "airport" ]%string
    with feature_names.
  apply (filter_ext_elem _ _ feature_names).
  intros name Hname. rewrite feature_enabled_get by exact Hname. reflexivity.
Qed.

Lemma enabled_count_features (theme : gmap string json) :
  enabled_count (get_enabled_features theme)
  = length (filter (fun name => has_key name theme = true) feature_names).
Proof.
  unfold enabled_count, get_enabled_features, feature_names.
  pose proof feature_keys_same as Hs.
  induction feature_keys as [|[n k] l IH]; [reflexivity|].
  apply Forall_cons in Hs as [Hnk Hs]. simpl in Hnk. subst k.
  cbn [map fst]. rewrite !filter_cons. cbn [snd].
  destruct (decide (has_key n theme = true)); cbn [length]; rewrite IH by exact Hs;
    reflexivity.
Qed.

(** X7: a fresh download sends the street request and one request for each
    feature whose key is in the theme, and none for the others; their number
    is the total announced to the progress bar, one more than the count of
    enabled features. *)
Theorem fetch_requests_enabled (theme : gmap string json) :
  length (fetch_requests (get_enabled_features theme))
  = (1 + enabled_count (get_enabled_features theme))%nat
  /\ (forall name,
        name ∈ fetch_requests (get_enabled_features theme)
        <-> name = "streets"%string \/ (name ∈ feature_names /\ name ∈ dom theme)).
Proof.
  rewrite fetch_requests_features, enabled_count_features. split; [reflexivity|].
  intros name. rewrite elem_of_cons, list_elem_of_filter, has_key_dom. tauto.
Qed.

(** ** The shape of a key *)

Lemma hex_digit_hex (x : Z) : is_hex_char (hex_digit x) = true.
Proof.
  destruct x as [|p|p]; [reflexivity| |reflexivity].
  destruct p as [[[[p|p|]|[p|p|]|]|[[p|p|]|[p|p|]|]|]|[[[p|p|]|[p|p|]|]|[[p|p|]|[p|p|]|]|]|];
    reflexivity.
Qed.

Lemma hexdigest_chars (st : md5_state) :
  exists bs, length bs = 16%nat
    /\ list_ascii_of_string (hexdigest st)
       = concat (map (fun b => [hex_digit (b / 16); hex_digit (b mod 16)]) bs).
Proof.
  destruct st as [[[A B] C] D].
  exists (le_bytes 4 A ++ le_bytes 4 B ++ le_bytes 4 C ++ le_bytes 4 D).
  split; reflexivity.
Qed.

(** X8: a cache key is 32 characters long and made of the digits and the
    letters a to f only, so the cache file name is the key followed by
    [.pkl], 36 characters, whatever the network type given. *)
Theorem cache_key_shape (point : Q * Q) (dist : Z) (network_type : string)
    (enabled_features : list (string * bool)) :
  let key := get_cache_key point dist network_type enabled_features in
  String.length key = 32%nat
  /\ Forall (fun c => is_hex_char c = true) (list_ascii_of_string key)
  /\ String.length (cache_path key) = 36%nat.
Proof.
  intros key. subst key. unfold get_cache_key, md5_hex.
  generalize (md5_digest (encode (key_string point dist network_type enabled_features))).
  intros st.
  destruct (hexdigest_chars st) as (bs & Hlen & Hchars).
  assert (Hl : String.length (hexdigest st) = 32%nat).
  { rewrite <- list_ascii_length, Hchars.
    do 17 (destruct bs as [|? bs]; try discriminate Hlen). reflexivity. }
  split; [exact Hl|]. split.
  - rewrite Hchars. apply Forall_concat, Forall_fmap, Forall_forall.
    intros b _. repeat constructor; apply hex_digit_hex.
  - unfold cache_path. rewrite <- list_ascii_length, list_ascii_app, length_app,
      !list_ascii_length, Hl. reflexivity.
Qed.

(** ** The colormap cache *)

Section ColormapCache.

Variable named_color : string -> option rgba.

Lemma get_cached_cmap_fst cache (colors : list string) :
  cache_ok named_color cache ->
  fst (get_cached_cmap named_color cache colors) = from_list named_color colors
  /\ cache_ok named_color (snd (get_cached_cmap named_color cache colors)).
Proof.
  intros Hok. unfold get_cached_cmap.
  destruct (cache !! colors) as [c|] eqn:E.
  - split; [symmetry; apply Hok, E|exact Hok].
  - destruct (from_list named_color colors) as [c|e] eqn:Hfl; cbn [fst snd];
      (split; [reflexivity|]); [|exact Hok].
    intros k c'. rewrite lookup_insert. case_decide as Hk.
    + subst k. intros [= <-]. exact Hfl.
    + apply Hok.
Qed.

(** X9: [get_cached_cmap] on a cache whose entries are the colormaps of
    their keys returns what building the colormap would return, keeps the
    cache such, only adds to it, and nothing when the colormap cannot be
    built; asking again for the same colours is answered from the cache,
    which then stays as it is. *)
Theorem get_cached_cmap_memo (cache : gmap (list string) cmap)
    (colors : list string) :
  cache_ok named_color cache ->
  let r := fst (get_cached_cmap named_color cache colors) in
  let cache' := snd (get_cached_cmap named_color cache colors) in
  r = from_list named_color colors
  /\ cache_ok named_color cache'
  /\ cache ⊆ cache'
  /\ (forall e, r = Raise e -> cache' = cache)
  /\ (forall c, r = Ok c ->
        cache' !! colors = Some c
        /\ get_cached_cmap named_color cache' colors = (Ok c, cache')).
Proof.
  intros Hok r cache'. subst r cache'.
  destruct (get_cached_cmap_fst cache colors Hok) as [Hfst Hok'].
  split; [exact Hfst|]. split; [exact Hok'|].
  unfold get_cached_cmap in *.
  destruct (cache !! colors) as [c|] eqn:E; cbn [fst snd] in *.
  - split; [reflexivity|]. split; [reflexivity|].
    intros c' [= <-]. rewrite E. auto.
  - destruct (from_list named_color colors) as [c|e] eqn:Hfl; cbn [fst snd] in *.
    + split; [apply insert_subseteq, E|]. split; [discriminate|].
      intros c' [= <-]. rewrite lookup_insert_eq. auto.
    + split; [reflexivity|]. split; [reflexivity|]. discriminate.
Qed.

End ColormapCache.

Lemma get_cached_cmap_memo_witness :
  cache_ok no_names ∅
  /\ snd (get_cached_cmap no_names ∅ [ "#000000"; "#FFFFFF" ]%string)
     !! [ "#000000"; "#FFFFFF" ]%string = Some sample_stops.
Proof.
  split; [apply cache_ok_empty|].
  destruct (get_cached_cmap_memo no_names ∅ [ "#000000"; "#FFFFFF" ]%string
              (cache_ok_empty no_names)) as (_ & _ & _ & _ & H).
  destruct (H sample_stops) as [Hin _]; [reflexivity|exact Hin].
Defined.

(** ** Edge colours and widths *)

Section EdgeColorsMore.

Variable named_color : string -> option rgba.

Lemma sample_gradient_cache cache1 cache2 G b params u v :
  cache_ok named_color cache1 -> cache_ok named_color cache2 ->
  fst (sample_gradient named_color cache1 G b params u v)
  = fst (sample_gradient named_color cache2 G b params u v)
  /\ cache_ok named_color (snd (sample_gradient named_color cache1 G b params u v)).
Proof.
  intros H1 H2. unfold sample_gradient.
  destruct params as [| | | | |p]; try (split; [reflexivity|exact H1]).
  destruct (edge_position G b p u v) as [pos|e]; [|split; [reflexivity|exact H1]].
  destruct (colors_arg _) as [colors|e]; [|split; [reflexivity|exact H1]].
  destruct (get_cached_cmap_fst named_color cache1 colors H1) as [E1 Hok1].
  destruct (get_cached_cmap_fst named_color cache2 colors H2) as [E2 _].
  destruct (get_cached_cmap named_color cache1 colors) as [r1 c1].
  destruct (get_cached_cmap named_color cache2 colors) as [r2 c2].
  cbn [fst snd] in *. subst r1 r2. split; [reflexivity|exact Hok1].
Qed.

Lemma edge_color_cache theme G b cache1 cache2 e :
  cache_ok named_color cache1 -> cache_ok named_color cache2 ->
  fst (edge_color named_color theme G b cache1 e)
  = fst (edge_color named_color theme G b cache2 e)
  /\ cache_ok named_color (snd (edge_color named_color theme G b cache1 e)).
Proof.
  intros H1 H2. unfold edge_color.
  destruct (parse_color_config _) as [is_gradient params].
  destruct is_gradient; cbn [negb]; [|split; [reflexivity|exact H1]].
  destruct (sample_gradient_cache cache1 cache2 G b params (edge_u e) (edge_v e)
              H1 H2) as [E Hok].
  destruct (sample_gradient named_color cache1 G b params (edge_u e) (edge_v e))
    as [r1 c1].
  destruct (sample_gradient named_color cache2 G b params (edge_u e) (edge_v e))
    as [r2 c2].
  cbn [fst snd] in *. subst r2. split; [reflexivity|exact Hok].
Qed.

Lemma edge_colors_loop_cache theme G b es :
  forall cache1 cache2,
    cache_ok named_color cache1 -> cache_ok named_color cache2 ->
    fst (edge_colors_loop named_color theme G b cache1 es)
    = fst (edge_colors_loop named_color theme G b cache2 es)
    /\ cache_ok named_color (snd (edge_colors_loop named_color theme G b cache1 es)).
Proof.
  induction es as [|e es IH]; intros cache1 cache2 H1 H2;
    [split; [reflexivity|exact H1]|].
  cbn [edge_colors_loop].
  destruct (edge_color_cache theme G b cache1 cache2 e H1 H2) as [E Hok1].
  destruct (edge_color_cache theme G b cache2 cache1 e H2 H1) as [_ Hok2].
  destruct (edge_color named_color theme G b cache1 e) as [r1 c1].
  destruct (edge_color named_color theme G b cache2 e) as [r2 c2].
  cbn [fst snd] in *. subst r2.
  destruct r1 as [c|err]; [|split; [reflexivity|exact Hok1]].
  destruct (IH c1 c2 Hok1 Hok2) as [E' Hok'].
  destruct (edge_colors_loop named_color theme G b c1 es) as [r1 d1].
  destruct (edge_colors_loop named_color theme G b c2 es) as [r2 d2].
  cbn [fst snd] in *. subst r2. split; [reflexivity|exact Hok'].
Qed.

(** X10: the colormap cache does not change the colours: starting from any
    cache whose entries are the colormaps of their keys,
    [get_edge_colors_by_type] returns the colours it returns from the empty
    cache, and hands back a cache of the same kind. *)
Theorem edge_colors_memo_transparent (theme : gmap string json)
    (cache : gmap (list string) cmap) (G : graph) (bounds : option bounds_t) :
  cache_ok named_color cache ->
  fst (get_edge_colors_by_type named_color theme cache G bounds)
  = fst (get_edge_colors_by_type named_color theme ∅ G bounds)
  /\ cache_ok named_color
       (snd (get_edge_colors_by_type named_color theme cache G bounds)).
Proof.
  intros Hok. unfold get_edge_colors_by_type.
  apply edge_colors_loop_cache; [exact Hok|apply cache_ok_empty].
Qed.

Lemma edge_colors_loop_length theme G b es :
  forall cache colors cache',
    edge_colors_loop named_color theme G b cache es = (Ok colors, cache') ->
    length colors = length es.
Proof.
  induction es as [|e es IH]; intros cache colors cache' H; cbn [edge_colors_loop] in H.
  - injection H as <- _. reflexivity.
  - destruct (edge_color named_color theme G b cache e) as [[c|err] c1];
      [|discriminate H].
    destruct (edge_colors_loop named_color theme G b c1 es) as [[cs|err] c2] eqn:E;
      cbn [mbind result_bind] in H; [|discriminate H].
    injection H as <- _. cbn [length]. f_equal. eapply IH, E.
Qed.

Lemma road_width_in (h : string) : road_width h ∈ stroke_widths.
Proof.
  unfold road_width, stroke_widths.
  repeat (match goal with |- context [str_in ?x ?l] => destruct (str_in x l) end);
    rewrite !elem_of_cons; tauto.
Qed.

(** X14: the widths and the colours go edge by edge: there is one width per
    edge, each one of 1.2, 1.0, 0.8, 0.6 and 0.4, and when the colours are
    computed there are as many of them. *)
Theorem edge_widths_parallel (theme : gmap string json)
    (cache cache' : gmap (list string) cmap) (G : graph)
    (bounds : option bounds_t) (colors : list rgba) :
  get_edge_colors_by_type named_color theme cache G bounds = (Ok colors, cache') ->
  length (get_edge_widths_by_type G) = length (edges G)
  /\ length colors = length (get_edge_widths_by_type G)
  /\ Forall (fun w => w ∈ stroke_widths) (get_edge_widths_by_type G).
Proof.
  intros H. unfold get_edge_widths_by_type. rewrite length_map.
  split; [reflexivity|]. split.
  - eapply edge_colors_loop_length, H.
  - apply Forall_fmap, Forall_forall. intros e _. apply road_width_in.
Qed.

End EdgeColorsMore.

Lemma edge_colors_memo_transparent_witness :
  cache_ok no_names {[ [ "#000000"; "#FFFFFF" ]%string := sample_stops ]}
  /\ fst (get_edge_colors_by_type no_names
            {[ "road_motorway" := JDict sample_params ]}%string
            {[ [ "#000000"; "#FFFFFF" ]%string := sample_stops ]}
            sample_graph None)
     = fst (get_edge_colors_by_type no_names
              {[ "road_motorway" := JDict sample_params ]}%string
              ∅ sample_graph None).
Proof.
  assert (H : cache_ok no_names {[ [ "#000000"; "#FFFFFF" ]%string := sample_stops ]}).
  { intros k c Hk. apply lookup_singleton_Some in Hk as [<- <-]. reflexivity. }
  split; [exact H|].
  destruct (edge_colors_memo_transparent no_names
              {[ "road_motorway" := JDict sample_params ]}%string
              {[ [ "#000000"; "#FFFFFF" ]%string := sample_stops ]}
              sample_graph None H) as [E _].
  exact E.
Defined.

Lemma edge_widths_parallel_witness :
  exists colors cache',
    get_edge_colors_by_type no_names default_theme ∅ sample_graph None
    = (Ok colors, cache')
    /\ length colors = length (get_edge_widths_by_type sample_graph).
Proof.
  destruct (get_edge_colors_by_type no_names default_theme ∅ sample_graph None)
    as [[colors|e] cache'] eqn:H.
  - exists colors, cache'. split; [reflexivity|].
    destruct (edge_widths_parallel no_names default_theme ∅ cache' sample_graph
                None colors H) as (_ & Hlen & _).
    exact Hlen.
  - vm_compute in H. discriminate H.
Defined.

Section EdgeColorsSolid.

Variable named_color : string -> option rgba.

Lemma edge_color_solid theme G b b' cache e :
  no_road_gradient theme = true ->
  edge_color named_color theme G b cache e
  = edge_color named_color theme G b' cache e
  /\ snd (edge_color named_color theme G b cache e) = cache.
Proof.
  intros Hs. unfold no_road_gradient in Hs. rewrite forallb_forall in Hs.
  specialize (Hs (road_key (highway_of (edge_highway e)))).
  rewrite <- list_elem_of_In in Hs. specialize (Hs (road_key_in _)).
  unfold edge_color.
  destruct (parse_color_config _) as [is_gradient params].
  cbn [fst] in Hs. destruct is_gradient; [discriminate Hs|].
  split; reflexivity.
Qed.

(** X11: when no road key of the theme holds a gradient, the colours depend
    neither on the bounds nor on the cache, and the colormap cache is handed
    back unchanged. *)
Theorem edge_colors_solid_theme (theme : gmap string json)
    (cache : gmap (list string) cmap) (G : graph) (bounds bounds' : option bounds_t) :
  no_road_gradient theme = true ->
  get_edge_colors_by_type named_color theme cache G bounds
  = get_edge_colors_by_type named_color theme cache G bounds'
  /\ snd (get_edge_colors_by_type named_color theme cache G bounds) = cache.
Proof.
  intros Hs. unfold get_edge_colors_by_type.
  generalize (effective_bounds G bounds) (effective_bounds G bounds').
  intros b b'. revert cache.
  induction (edges G) as [|e es IH]; intros cache; [split; reflexivity|].
  cbn [edge_colors_loop].
  destruct (edge_color_solid theme G b b' cache e Hs) as [E Hc].
  rewrite <- E.
  destruct (edge_color named_color theme G b cache e) as [[c|err] c1];
    cbn [snd] in Hc; subst c1; [|split; reflexivity].
  destruct (IH cache) as [E' Hc']. rewrite <- E'.
  destruct (edge_colors_loop named_color theme G b cache es) as [r c2].
  cbn [snd] in *. subst c2. split; reflexivity.
Qed.

(** X12: an edge whose class has no key in the theme is coloured [#3A3A3A];
    what the theme has under [road_default] plays no part, unless the edge
    is of the default class itself. *)
Theorem edge_color_missing_key (theme : gmap string json) (G : graph)
    (b : bounds_t) (cache : gmap (list string) cmap) (e : edge) (v : json) :
  theme !! road_key (highway_of (edge_highway e)) = None ->
  road_key (highway_of (edge_highway e)) <> "road_default"%string ->
  edge_color named_color (<[ "road_default"%string := v ]> theme) G b cache e
  = (Ok (channel 3 10, channel 3 10, channel 3 10, 1%Q), cache).
Proof.
  intros Hnone Hne. unfold edge_color, dict_get.
  rewrite lookup_insert_ne by congruence. rewrite Hnone. reflexivity.
Qed.



End EdgeColorsSolid.

Lemma edge_colors_solid_theme_witness :
  no_road_gradient default_theme = true
  /\ get_edge_colors_by_type no_names default_theme ∅ sample_graph None
     = get_edge_colors_by_type no_names default_theme ∅ sample_graph
         (Some (5, 5, 5, 5)%Q).
Proof.
  assert (H : no_road_gradient default_theme = true) by (vm_compute; reflexivity).
  split; [exact H|].
  destruct (edge_colors_solid_theme no_names default_theme ∅ sample_graph None
              (Some (5, 5, 5, 5)%Q) H) as [E _].
  exact E.
Defined.

Lemma edge_color_missing_key_witness :
  let e := {| edge_u := 1; edge_v := 2; edge_highway := Some (TagStr "motorway") |} in
  (∅ : gmap string json) !! road_key (highway_of (edge_highway e)) = None
  /\ road_key (highway_of (edge_highway e)) <> "road_default"%string
  /\ edge_color no_names (<[ "road_default"%string := JStr "#FF0000" ]> ∅)
       sample_graph (0, 0, 2, 4)%Q ∅ e
     = (Ok (channel 3 10, channel 3 10, channel 3 10, 1%Q), ∅).
Proof.
  intros e.
  assert (H1 : (∅ : gmap string json) !! road_key (highway_of (edge_highway e)) = None)
    by reflexivity.
  assert (H2 : road_key (highway_of (edge_highway e)) <> "road_default"%string)
    by (vm_compute; discriminate).
  split; [exact H1|]. split; [exact H2|].
  exact (edge_color_missing_key no_names ∅ sample_graph (0, 0, 2, 4)%Q ∅ e
           (JStr "#FF0000") H1 H2).
Defined.


(** ** Geometry *)

Lemma row_polygons_not_area (row : option geometry) :
  is_area_row row = false -> row_polygons row = [].
Proof.
  destruct row as [[]|]; try reflexivity; try discriminate;
    intros _; unfold row_polygons; destruct (is_empty _); reflexivity.
Qed.

Lemma row_polygons_filter (rows : gdf) :
  concat (map row_polygons (List.filter is_area_row rows))
  = concat (map row_polygons rows).
Proof.
  induction rows as [|row rows IH]; [reflexivity|]. cbn [List.filter].
  destruct (is_area_row row) eqn:E; cbn [map concat]; rewrite IH; [reflexivity|].
  rewrite (row_polygons_not_area row E). reflexivity.
Qed.

(** X15: the path built for a gradient fill is made of the polygons only:
    rows that are points or lines, or have no geometry, add nothing, so the
    path of a collection is the path of its area rows, and [filter_geom]
    with the area types does not change it. *)
Theorem geoms_to_path_area_rows (rows : gdf) :
  geoms_to_path (List.filter is_area_row rows) = geoms_to_path rows
  /\ (forall rows', filter_geom (Some rows) area_features = Some rows' ->
        geoms_to_path rows' = geoms_to_path rows).
Proof.
  assert (H : geoms_to_path (List.filter is_area_row rows) = geoms_to_path rows).
  { unfold geoms_to_path. rewrite row_polygons_filter. reflexivity. }
  split; [exact H|].
  intros rows' Hf. rewrite filter_geom_area in Hf. cbn in Hf.
  injection Hf as <-. exact H.
Qed.

Lemma geoms_to_path_area_rows_witness :
  filter_geom (Some [ Some (Point (1, 2)%Q);
                      Some (Polygon {| exterior := [ (0, 0); (1, 0); (1, 1); (0, 0) ]%Q;
                                       interiors := [] |}) ]) area_features
  = Some [ Some (Polygon {| exterior := [ (0, 0); (1, 0); (1, 1); (0, 0) ]%Q;
                            interiors := [] |}) ]
  /\ geoms_to_path [ Some (Polygon {| exterior := [ (0, 0); (1, 0); (1, 1); (0, 0) ]%Q;
                                      interiors := [] |}) ]
     = geoms_to_path [ Some (Point (1, 2)%Q);
                       Some (Polygon {| exterior := [ (0, 0); (1, 0); (1, 1); (0, 0) ]%Q;
                                        interiors := [] |}) ].
Proof.
  assert (H : filter_geom
                (Some [ Some (Point (1, 2)%Q);
                        Some (Polygon {| exterior := [ (0, 0); (1, 0); (1, 1); (0, 0) ]%Q;
                                         interiors := [] |}) ]) area_features
              = Some [ Some (Polygon {| exterior := [ (0, 0); (1, 0); (1, 1); (0, 0) ]%Q;
                                        interiors := [] |}) ]) by reflexivity.
  split; [exact H|].
  destruct (geoms_to_path_area_rows
              [ Some (Point (1, 2)%Q);
                Some (Polygon {| exterior := [ (0, 0); (1, 0); (1, 1); (0, 0) ]%Q;
                                 interiors := [] |}) ]) as [_ Hp].
  exact (Hp _ H).
Defined.

Lemma ring_path_verts (ring : list coord) : fst (ring_path ring) = ring.
Proof. destruct ring; reflexivity. Qed.

Lemma ring_path_codes (ring : list coord) :
  length ring <> 1%nat -> length (snd (ring_path ring)) = length ring.
Proof.
  destruct ring as [|c [|c' ring]]; intros H; [reflexivity|contradiction|].
  cbn [ring_path snd]. rewrite length_app, length_app, length_replicate.
  cbn [length]. lia.
Qed.

Lemma rings_verts (rings : list (list coord)) :
  concat (map fst (map ring_path rings)) = concat rings.
Proof.
  induction rings as [|r rings IH]; [reflexivity|].
  cbn [map concat]. rewrite ring_path_verts, IH. reflexivity.
Qed.

Lemma rings_codes (rings : list (list coord)) :
  Forall (fun ring => length ring <> 1%nat) rings ->
  length (concat (map snd (map ring_path rings))) = length (concat rings).
Proof.
  induction 1 as [|r rings Hr _ IH]; [reflexivity|].
  cbn [map concat]. rewrite !length_app, ring_path_codes, IH by exact Hr.
  reflexivity.
Qed.

Lemma geoms_to_path_rings (geoms : gdf) :
  concat (map (fun p => ring_path (exterior p) :: map ring_path (interiors p))
              (concat (map row_polygons geoms)))
  = map ring_path (all_rings geoms).
Proof.
  unfold all_rings. induction (concat (map row_polygons geoms)) as [|p ps IH];
    [reflexivity|].
  cbn [map concat]. rewrite IH, map_app. reflexivity.
Qed.

(** X16: the vertices of the path are the coordinates of all the rings, each
    polygon's exterior followed by its holes, with as many codes; there is no
    path when there is no coordinate at all; and building the path fails
    only if some ring has exactly one coordinate. *)
Theorem geoms_to_path_vertices (geoms : gdf) :
  Forall (fun ring => length ring <> 1%nat) (all_rings geoms) ->
  match geoms_to_path geoms with
  | Ok None => concat (all_rings geoms) = []
  | Ok (Some p) =>
      verts p = concat (all_rings geoms) /\ verts p <> []
      /\ length (codes p) = length (verts p)
  | Raise _ => False
  end.
Proof.
  intros Hrings. unfold geoms_to_path. rewrite geoms_to_path_rings, rings_verts.
  pose proof (rings_codes (all_rings geoms) Hrings) as Hlen.
  destruct (concat (all_rings geoms)) as [|c vs] eqn:E; [reflexivity|].
  unfold Path.
  assert (Heq : (length (c :: vs)
                 =? length (concat (map snd (map ring_path (all_rings geoms)))))%nat
                = true) by (apply Nat.eqb_eq; symmetry; exact Hlen).
  rewrite Heq. cbn [mbind result_bind verts codes].
  split; [reflexivity|]. split; [discriminate|exact Hlen].
Qed.

Lemma geoms_to_path_vertices_witness :
  Forall (fun ring => length ring <> 1%nat)
    (all_rings
       [ Some (Polygon {| exterior := [ (0, 0); (4, 0); (4, 4); (0, 0) ]%Q;
                          interiors := [ [ (1, 1); (2, 1); (2, 2); (1, 1) ]%Q ] |}) ])
  /\ match geoms_to_path
             [ Some (Polygon {| exterior := [ (0, 0); (4, 0); (4, 4); (0, 0) ]%Q;
                                interiors := [ [ (1, 1); (2, 1); (2, 2); (1, 1) ]%Q ] |}) ]
     with
     | Ok (Some p) => length (codes p) = length (verts p)
     | _ => False
     end.
Proof.
  assert (H : Forall (fun ring => length ring <> 1%nat)
                (all_rings
                   [ Some (Polygon {| exterior := [ (0, 0); (4, 0); (4, 4); (0, 0) ]%Q;
                                      interiors := [ [ (1, 1); (2, 1); (2, 2); (1, 1) ]%Q ] |}) ])).
  { repeat constructor; discriminate. }
  split; [exact H|].
  pose proof (geoms_to_path_vertices _ H) as Hp.
  destruct (geoms_to_path _) as [[p|]|e]; [|discriminate Hp|exact Hp].
  destruct Hp as (_ & _ & Hlen). exact Hlen.
Defined.

(** A ring with a single coordinate gets two codes, and the path is refused. *)
Example geoms_to_path_single_point_ring :
  geoms_to_path [ Some (Polygon {| exterior := [ (0, 0)%Q ]; interiors := [] |}) ]
  = Raise ValueError.
Proof. reflexivity. Qed.



Section GradientArray.

Variable named_color : string -> option rgba.



End GradientArray.


Section PlotFeature.

Variable named_color : string -> option rgba.



End PlotFeature.


(** X19: filtering by geometry type keeps rows of the given types only,
    keeps all of them in their order, and filtering a second time changes
    nothing. *)
Theorem filter_geom_idempotent (g : option gdf) (geom_types : list string) :
  filter_geom g geom_types = List.filter (row_has_type geom_types) <$> g
  /\ filter_geom (filter_geom g geom_types) geom_types = filter_geom g geom_types
  /\ (forall rows, filter_geom g geom_types = Some rows ->
        Forall (fun row => exists geom,
                  row = Some geom /\ geom_type geom ∈ geom_types) rows).
Proof.
  assert (H : forall g' : option gdf,
             filter_geom g' geom_types
             = List.filter (row_has_type geom_types) <$> g').
  { intros [[|row rows]|]; reflexivity. }
  split; [apply H|]. split.
  - rewrite !H. destruct g as [rows|]; [|reflexivity]. cbn. f_equal.
    induction rows as [|row rows IH]; [reflexivity|]. cbn [List.filter].
    destruct (row_has_type geom_types row) eqn:E; [|exact IH].
    cbn [List.filter]. rewrite E, IH. reflexivity.
  - intros rows. rewrite H. destruct g as [rows0|]; [|discriminate].
    cbn. intros [= <-]. apply Forall_forall. intros row Hin.
    apply list_elem_of_In, filter_In in Hin as [_ Hrow].
    destruct row as [geom|]; [|discriminate Hrow].
    exists geom. split; [reflexivity|]. cbn in Hrow. unfold str_in in Hrow.
    apply bool_decide_eq_true in Hrow. exact Hrow.
Qed.

Lemma filter_geom_idempotent_witness :
  filter_geom (Some [ Some (Point (1, 2)%Q); None ]) [ "Point" ]%string
  = Some [ Some (Point (1, 2)%Q) ]
  /\ Forall (fun row => exists geom,
               row = Some geom /\ geom_type geom ∈ [ "Point" ]%string)
       [ Some (Point (1, 2)%Q) ].
Proof.
  assert (H : filter_geom (Some [ Some (Point (1, 2)%Q); None ]) [ "Point" ]%string
              = Some [ Some (Point (1, 2)%Q) ]) by reflexivity.
  split; [exact H|].
  destruct (filter_geom_idempotent (Some [ Some (Point (1, 2)%Q); None ])
              [ "Point" ]%string) as (_ & _ & Hall).
  exact (Hall _ H).
Defined.

(** ** Bounds *)

Lemma foldl_Qmin_le (l : list Q) :
  forall x, (foldl Qmin x l <= x)%Q /\ Forall (fun y => foldl Qmin x l <= y)%Q l.
Proof.
  induction l as [|y l IH]; intros x; cbn [foldl].
  - split; [apply Qle_refl|constructor].
  - destruct (IH (Qmin x y)) as [H1 H2]. split.
    + eapply Qle_trans; [exact H1|apply Q.le_min_l].
    + constructor; [|exact H2]. eapply Qle_trans; [exact H1|apply Q.le_min_r].
Qed.

Lemma foldl_Qmax_le (l : list Q) :
  forall x, (x <= foldl Qmax x l)%Q /\ Forall (fun y => y <= foldl Qmax x l)%Q l.
Proof.
  induction l as [|y l IH]; intros x; cbn [foldl].
  - split; [apply Qle_refl|constructor].
  - destruct (IH (Qmax x y)) as [H1 H2]. split.
    + eapply Qle_trans; [apply Q.le_max_l|exact H1].
    + constructor; [|exact H2]. eapply Qle_trans; [apply Q.le_max_r|exact H1].
Qed.

Lemma list_min_le (l : list Q) (m : Q) :
  list_min l = Some m -> Forall (fun y => m <= y)%Q l.
Proof.
  destruct l as [|x l]; [discriminate|]. intros [= <-].
  destruct (foldl_Qmin_le l x) as [H1 H2]. constructor; assumption.
Qed.

Lemma list_max_le (l : list Q) (m : Q) :
  list_max l = Some m -> Forall (fun y => y <= m)%Q l.
Proof.
  destruct l as [|x l]; [discriminate|]. intros [= <-].
  destruct (foldl_Qmax_le l x) as [H1 H2]. constructor; assumption.
Qed.

Lemma node_points_coords (ns : list node_data) (pts : list (Q * Q)) :
  mapM (fun d => x ← node_x d; y ← node_y d; Some (x, y)) ns = Some pts ->
  mapM node_x ns = Some (map fst pts) /\ mapM node_y ns = Some (map snd pts)
  /\ Forall2 (fun d pt => node_x d = Some pt.1 /\ node_y d = Some pt.2) ns pts.
Proof.
  intros H. apply mapM_Some in H.
  assert (HF : Forall2 (fun d pt => node_x d = Some pt.1 /\ node_y d = Some pt.2)
                 ns pts).
  { eapply Forall2_impl; [exact H|]. intros d [x y] Hd. cbn in *.
    destruct (node_x d) as [x'|]; [|discriminate Hd].
    destruct (node_y d) as [y'|]; [|discriminate Hd].
    cbn in Hd. injection Hd as -> ->. auto. }
  split; [|split; [|exact HF]].
  - apply mapM_Some. apply Forall2_fmap_r.
    eapply Forall2_impl; [exact HF|]. intros d pt [Hx _]. exact Hx.
  - apply mapM_Some. apply Forall2_fmap_r.
    eapply Forall2_impl; [exact HF|]. intros d pt [_ Hy]. exact Hy.
Qed.

(** X20: the bounds that [create_poster] computes are the ones
    [get_edge_colors_by_type] would compute itself when given none; every
    node, and so the midpoint of every edge between nodes, lies inside them. *)
Theorem poster_bounds_contain (G : graph) (bounds : option bounds_t) :
  poster_bounds G = Ok bounds ->
  effective_bounds G bounds = effective_bounds G None
  /\ (forall named_color theme cache,
        get_edge_colors_by_type named_color theme cache G bounds
        = get_edge_colors_by_type named_color theme cache G None)
  /\ (bounds = None <-> nodes G = ∅)
  /\ (forall minx miny maxx maxy, bounds = Some (minx, miny, maxx, maxy) ->
        (forall n d, nodes G !! n = Some d ->
           exists x y, node_x d = Some x /\ node_y d = Some y
                       /\ (minx <= x <= maxx)%Q /\ (miny <= y <= maxy)%Q)
        /\ (forall u v xy, midpoint G u v = Some xy ->
              (minx <= xy.1 <= maxx)%Q /\ (miny <= xy.2 <= maxy)%Q)).
Proof.
  unfold poster_bounds.
  destruct (mapM _ (map snd (map_to_list (nodes G)))) as [pts|] eqn:Hpts;
    [|discriminate].
  cbn [of_option mbind result_bind].
  destruct (node_points_coords _ _ Hpts) as (Hxs & Hys & HF).
  destruct pts as [|pt pts].
  - cbn. intros H. apply Ok_inj in H. subst bounds.
    apply Forall2_nil_inv_r in HF.
    assert (Hempty : nodes G = ∅).
    { apply map_to_list_empty_iff. destruct (map_to_list (nodes G)); [reflexivity|].
      discriminate HF. }
    split; [reflexivity|]. split; [reflexivity|]. split; [tauto|]. discriminate.
  - destruct (list_min (map fst (pt :: pts))) as [minx|] eqn:Hminx; [|discriminate Hminx].
    destruct (list_max (map fst (pt :: pts))) as [maxx|] eqn:Hmaxx; [|discriminate Hmaxx].
    destruct (list_min (map snd (pt :: pts))) as [miny|] eqn:Hminy; [|discriminate Hminy].
    destruct (list_max (map snd (pt :: pts))) as [maxy|] eqn:Hmaxy; [|discriminate Hmaxy].
    intros H. apply Ok_inj in H. subst bounds.
    assert (Hnodes : forall n d, nodes G !! n = Some d ->
              exists x y, node_x d = Some x /\ node_y d = Some y
                          /\ (minx <= x <= maxx)%Q /\ (miny <= y <= maxy)%Q).
    { intros n d Hd.
      assert (Hin : d ∈ map snd (map_to_list (nodes G))).
      { apply list_elem_of_fmap. exists (n, d). split; [reflexivity|].
        apply elem_of_map_to_list, Hd. }
      apply list_elem_of_lookup in Hin as [i Hi].
      destruct (Forall2_lookup_l _ _ _ _ _ HF Hi) as ([x y] & Hpt & Hx & Hy).
      cbn in Hx, Hy. exists x, y. split; [exact Hx|]. split; [exact Hy|].
      apply list_min_le in Hminx, Hminy. apply list_max_le in Hmaxx, Hmaxy.
      rewrite Forall_forall in Hminx, Hminy, Hmaxx, Hmaxy.
      assert (Hfx : x ∈ map fst (pt :: pts)).
      { apply list_elem_of_fmap. exists (x, y). split; [reflexivity|].
        eapply list_elem_of_lookup_2, Hpt. }
      assert (Hfy : y ∈ map snd (pt :: pts)).
      { apply list_elem_of_fmap. exists (x, y). split; [reflexivity|].
        eapply list_elem_of_lookup_2, Hpt. }
      auto. }
    assert (Heff : effective_bounds G (Some (minx, miny, maxx, maxy))
                   = effective_bounds G None).
    { cbn [effective_bounds]. unfold node_bounds. rewrite Hxs, Hys.
      cbn [of_option mbind result_bind]. rewrite Hminx, Hmaxx, Hminy, Hmaxy.
      reflexivity. }
    split; [exact Heff|]. split; [|split].
    + intros named_color theme cache. unfold get_edge_colors_by_type.
      rewrite Heff. reflexivity.
    + split; [discriminate|]. intros Hempty. rewrite Hempty, map_to_list_empty in HF.
      inversion HF.
    + intros ? ? ? ? [= <- <- <- <-]. split; [exact Hnodes|].
      intros u v xy Hmid. unfold midpoint in Hmid.
      destruct (nodes G !! u) as [un|] eqn:Hu; [|discriminate].
      destruct (nodes G !! v) as [vn|] eqn:Hv; [|discriminate].
      destruct (Hnodes u un Hu) as (ux & uy & Hux & Huy & Hbx & Hby).
      destruct (Hnodes v vn Hv) as (vx & vy & Hvx & Hvy & Hbx' & Hby').
      cbn in Hmid. rewrite Hux, Hvx, Huy, Hvy in Hmid. cbn in Hmid.
      injection Hmid as <-. cbn [fst snd].
      assert (E1 : ((ux + vx) / 2 == (ux + vx) * (1 # 2))%Q) by reflexivity.
      assert (E2 : ((uy + vy) / 2 == (uy + vy) * (1 # 2))%Q) by reflexivity.
      rewrite E1, E2. split; split; lra.
Qed.

Lemma poster_bounds_contain_witness :
  poster_bounds sample_graph = Ok (Some (0, 0, 2, 4)%Q)
  /\ effective_bounds sample_graph (Some (0, 0, 2, 4)%Q)
     = effective_bounds sample_graph None.
Proof.
  assert (H : poster_bounds sample_graph = Ok (Some (0, 0, 2, 4)%Q))
    by (vm_compute; reflexivity).
  split; [exact H|].
  destruct (poster_bounds_contain sample_graph (Some (0, 0, 2, 4)%Q) H) as [E _].
  exact E.
Defined.

(** ** What a theme has to hold *)

Section ThemeNeeds.

Variable named_color : string -> option rgba.

(** X21: the two fades are drawn exactly when the theme has a
    [gradient_color] that is a colour; a theme without the key, which
    [load_theme] accepts, makes this step raise [KeyError], and a value that
    is no colour makes it raise [ValueError]. *)
Theorem vignette_needs_gradient_color (theme : gmap string json) (xlim ylim : Q * Q) :
  load_theme (Json (JDict theme)) = Ok theme
  /\ match theme !! "gradient_color"%string with
     | None => vignette named_color theme xlim ylim = Raise KeyError
     | Some c =>
         match to_rgba_value named_color (ColJson c) with
         | Ok _ => exists bottom top,
                     vignette named_color theme xlim ylim = Ok (bottom, top)
         | Raise e => vignette named_color theme xlim ylim = Raise e
         end
     end.
Proof.
  split; [reflexivity|]. unfold vignette.
  destruct (theme !! "gradient_color"%string) as [c|]; [|reflexivity].
  cbn [of_option mbind result_bind]. unfold create_gradient_fade.
  destruct (to_rgba_value named_color (ColJson c)) as [rgb|e]; [|reflexivity].
  cbn [mbind result_bind]. eexists _, _. reflexivity.
Qed.

End ThemeNeeds.

(** ** Themes on disk *)

Lemma string_length_app (s t : string) :
  String.length (s +:+ t) = (String.length s + String.length t)%nat.
Proof.
  rewrite <- !list_ascii_length, list_ascii_app, length_app. reflexivity.
Qed.

Lemma endswith_spec (s suffix : string) :
  endswith s suffix = true <-> exists name, s = name +:+ suffix.
Proof.
  unfold endswith. rewrite bool_decide_eq_true. split.
  - intros H.
    exists (string_of_list_ascii
              (take (String.length s - String.length suffix)
                    (list_ascii_of_string s))).
    apply list_ascii_inj.
    rewrite list_ascii_app, list_ascii_of_string_of_list_ascii, <- H.
    symmetry. apply take_drop.
  - intros [name ->].
    rewrite string_length_app, list_ascii_app.
    replace (String.length name + String.length suffix - String.length suffix)%nat
      with (length (list_ascii_of_string name))
      by (rewrite list_ascii_length; lia).
    apply drop_app_length.
Qed.

Lemma drop_last_app (name suffix : string) :
  drop_last (String.length suffix) (name +:+ suffix) = name.
Proof.
  unfold drop_last. rewrite string_length_app, list_ascii_app.
  replace (String.length name + String.length suffix - String.length suffix)%nat
    with (length (list_ascii_of_string name))
    by (rewrite list_ascii_length; lia).
  rewrite take_app_length. apply string_of_list_ascii_of_string.
Qed.

Lemma drop_last_json (name : string) : drop_last 5 (name +:+ ".json") = name.
Proof. exact (drop_last_app name ".json"). Qed.

Lemma available_themes_elem (files : list string) (name : string) :
  name ∈ get_available_themes (Some files) <-> name +:+ ".json" ∈ files.
Proof.
  unfold get_available_themes, sorted. rewrite list_elem_of_fmap. split.
  - intros (file & -> & Hin).
    apply list_elem_of_In, filter_In in Hin as [Hin Hend].
    apply list_elem_of_In in Hin. rewrite merge_sort_Permutation in Hin.
    apply endswith_spec in Hend as [name ->].
    rewrite drop_last_json. exact Hin.
  - intros Hin. exists (name +:+ ".json"). split.
    + symmetry. apply drop_last_json.
    + apply list_elem_of_In, filter_In. split.
      * apply list_elem_of_In. rewrite merge_sort_Permutation. exact Hin.
      * apply endswith_spec. eauto.
Qed.

(** X22: the available themes are the names of the [.json] files of the
    themes directory, none when the directory is missing; a theme name that
    the main block lets through has its file, so what is loaded is that
    file's mapping and never the embedded default. *)
Theorem available_themes_loaded (themes : gmap string file_content)
    (files : list string) (theme_name : string) :
  get_available_themes None = []
  /\ (theme_name ∈ get_available_themes (Some files)
      <-> theme_name +:+ ".json" ∈ files)
  /\ (main_load_theme themes theme_name = None
      <-> themes !! (theme_name +:+ ".json") = None)
  /\ (forall theme,
        main_load_theme themes theme_name = Some (Ok theme) ->
        themes !! (theme_name +:+ ".json") = Some (CJson (JDict theme))).
Proof.
  split; [reflexivity|]. split; [apply available_themes_elem|].
  assert (Hav : theme_name ∈ get_available_themes (Some (elements (dom themes)))
                <-> is_Some (themes !! (theme_name +:+ ".json"))).
  { rewrite available_themes_elem, elem_of_elements, elem_of_dom. reflexivity. }
  unfold main_load_theme. split.
  - case_bool_decide as Hin.
    + apply Hav in Hin as [c Hc]. rewrite Hc. split; discriminate.
    + split; [intros _|reflexivity].
      apply eq_None_not_Some. intros Hs. apply Hin, Hav, Hs.
  - intros theme. case_bool_decide as Hin; [|discriminate].
    intros [= Hload]. unfold theme_file_of in Hload.
    apply Hav in Hin as [c Hc]. rewrite Hc in *.
    destruct c as [| |j]; try discriminate Hload.
    destruct j; try discriminate Hload. cbn in Hload. injection Hload as ->.
    reflexivity.
Qed.

Lemma available_themes_loaded_witness :
  main_load_theme {[ "noir.json"%string := CJson (JDict ∅) ]} "noir" = Some (Ok ∅)
  /\ ({[ "noir.json"%string := CJson (JDict ∅) ]} : gmap string file_content)
     !! ("noir" +:+ ".json") = Some (CJson (JDict ∅)).
Proof.
  assert (H : main_load_theme {[ "noir.json"%string := CJson (JDict ∅) ]} "noir"
              = Some (Ok ∅)) by (vm_compute; reflexivity).
  split; [exact H|].
  destruct (available_themes_loaded {[ "noir.json"%string := CJson (JDict ∅) ]}
              [] "noir") as (_ & _ & _ & Hl).
  exact (Hl ∅ H).
Defined.

(** The themes come in the order of their file names, which is not always
    the order of the names: [-] sorts before [.]. *)
Example available_themes_order :
  get_available_themes (Some [ "a.json"; "a-b.json"; "notes.txt" ]%string)
  = [ "a-b"; "a" ]%string.
Proof. vm_compute. reflexivity. Qed.

(** ** What reaches the area layers *)

Section AreaOps.

Variable named_color : string -> option rgba.



End AreaOps.


(** ** Nearby coordinates *)




Lemma download_isolates_failures_witness :
  exists data,
    download sample_fetcher (0, 0)%Q 1000 "drive" (get_enabled_features default_theme)
    = Ok data
    /\ dataset_feature data "water" = None.
Proof.
  pose proof (download_isolates_failures sample_fetcher (0, 0)%Q 1000 "drive"
                (get_enabled_features default_theme)) as H.
  cbn [graph_from_point sample_fetcher] in H.
  destruct H as (data & Hd & _ & Hf).
  exists data. split; [exact Hd|].
  rewrite (Hf "water"%string) by (vm_compute; left).
  reflexivity.
Defined.
